(** * Gym face-matching service

    A shallow embedding of [gym_api/app.py]: the in-memory event log and its
    JSON file, the debounce cache [LAST_SEEN], the gallery file, and the
    request handlers [enroll], [match], [add_event], [clear_events],
    [list_events].

    Conventions.
    - A Python [float] is an IEEE binary64 number: Rocq's primitive [float].
    - [datetime.timestamp()] is a float: the binary64 number of seconds
      since the epoch.  The debounce check subtracts and compares these
      numbers in binary64, as the code does.
    - A [dict] whose iteration order is observable (the gallery, the score
      map) is an association list in insertion order; [LAST_SEEN], which is
      only looked up and assigned, is a finite map.
    - Library calls whose result the program only inspects
      ([datetime.fromisoformat], [cv2.imdecode], [FaceAnalysis.get]) are
      section variables. *)

From Stdlib Require Import ZArith Floats Ascii String.
From stdpp Require Import base option list strings gmap.

Local Open Scope string_scope.
Local Open Scope list_scope.
Local Open Scope Z_scope.

(** ** Exceptions *)

Inductive exn : Type :=
| ValueError (msg : string)
| JSONDecodeError.

(** [str(e)] *)
Definition str_exn (e : exn) : string :=
  match e with
  | ValueError msg => msg
  | JSONDecodeError => "Expecting value: line 1 column 1 (char 0)"
  end.

Inductive py (A : Type) : Type :=
| Return (a : A)
| Raise (e : exn).
Arguments Return {A} a.
Arguments Raise {A} e.

Definition py_bind {A B} (c : py A) (k : A -> py B) : py B :=
  match c with
  | Return a => k a
  | Raise e => Raise e
  end.

Notation "'do' x <~ c ; k" := (py_bind c (fun x => k))
  (at level 10, x pattern, c at level 100, k at level 200).

(** ** Time *)

(** microseconds in a second *)
Definition MICRO : Z := 1000000.

(** Debounce: one event per (person,camera) within this many seconds *)
Definition DEDUPE_WINDOW_SEC : Z := 30.

(** [float(n)] for an integer below [2^63] in size; exact below [2^53] *)
Definition float_of_int (n : Z) : float :=
  if n <? 0 then (- PrimFloat.of_uint63 (Uint63.of_Z (- n)))%float
  else PrimFloat.of_uint63 (Uint63.of_Z n).

(** the sign of a binary64 number; a nan has none *)
Definition has_sign (s : bool) (f : spec_float) : Prop :=
  match f with
  | S754_zero s' | S754_infinity s' | S754_finite s' _ _ => s' = s
  | S754_nan => False
  end.

(** zeros and finite numbers *)
Definition SFfinite (f : spec_float) : Prop :=
  match f with
  | S754_zero _ | S754_finite _ _ _ => True
  | _ => False
  end.

(** [if s] on a [str | None] *)
Definition truthy (s : option string) : bool :=
  match s with
  | None => false
  | Some s => negb (String.eqb s "")
  end.

(** ** The debounce cache *)

Section Debounce.

(** [datetime.fromisoformat(s).timestamp()]: binary64 seconds since the
    epoch; [None] when [fromisoformat] raises [ValueError]. *)
Variable fromisoformat : string -> option float.

Definition parse_timestamp (s : string) : py float :=
  match fromisoformat s with
  | Some t => Return t
  | None => Raise (ValueError (String.append "Invalid isoformat string: " s))
  end.

(** [now = datetime.fromisoformat(ts_iso) if ts_iso else
    datetime.now(timezone.utc)], read through [now.timestamp()]; [clock]
    is [datetime.now(timezone.utc).timestamp()]. *)
Definition now_timestamp (clock : float) (ts_iso : option string) : py float :=
  if truthy ts_iso then parse_timestamp (default "" ts_iso)
  else Return clock.

(** [_should_log(person, camera, ts_iso)].  The result carries the value
    of [LAST_SEEN] after the call. *)
Definition _should_log (clock : float) (person camera : string)
    (ts_iso : option string) (LAST_SEEN : gmap (string * string) float)
  : py (bool * gmap (string * string) float) :=
  do now <~ now_timestamp clock ts_iso;
  let key := (person, camera) in
  let last_ts := LAST_SEEN !! key in
  let suppressed :=
    match last_ts with
    | Some last_ts =>
        let delta := (now - last_ts)%float in
        (delta <? float_of_int DEDUPE_WINDOW_SEC)%float
    | None => false
    end in
  if suppressed then Return (false, LAST_SEEN)
  else Return (true, <[key := now]> LAST_SEEN).

End Debounce.

(** ** An ISO-8601 reader for the examples

    Reads the text [datetime.isoformat()] produces for a naive datetime,
    [YYYY-MM-DDTHH:MM:SS] with an optional [.ffffff], and takes the local
    zone to be UTC.  [microseconds] is the instant read, counted from the
    epoch; [seconds] is what [timestamp()] makes of it. *)

Module Iso.

Definition digit (c : ascii) : option Z :=
  let n := Z.of_N (N_of_ascii c) in
  if (48 <=? n) && (n <=? 57) then Some (n - 48) else None.

Fixpoint number (acc : Z) (s : string) : option Z :=
  match s with
  | EmptyString => Some acc
  | String c r => d ← digit c; number (10 * acc + d) r
  end.

Definition field (s : string) (i n : nat) : option Z :=
  let f := substring i n s in
  if Nat.eqb (String.length f) n then number 0 f else None.

Definition sep (s : string) (i : nat) (c : string) : option unit :=
  if String.eqb (substring i 1 s) c then Some tt else None.

Definition leap (y : Z) : bool :=
  (y mod 4 =? 0) && (negb (y mod 100 =? 0) || (y mod 400 =? 0)).

Definition days_in_month (y m : Z) : Z :=
  if m =? 2 then (if leap y then 29 else 28)
  else if (m =? 4) || (m =? 6) || (m =? 9) || (m =? 11) then 30 else 31.

(** days from 1970-01-01 to the given civil date *)
Definition days_from_civil (y m d : Z) : Z :=
  let y' := if m <=? 2 then y - 1 else y in
  let era := y' / 400 in
  let yoe := y' - era * 400 in
  let mp := (m + 9) mod 12 in
  let doy := (153 * mp + 2) / 5 + d - 1 in
  let doe := yoe * 365 + yoe / 4 - yoe / 100 + doy in
  era * 146097 + doe - 719468.

Definition guard (b : bool) : option unit := if b then Some tt else None.

Definition microseconds (s : string) : option Z :=
  y ← field s 0 4; _ ← sep s 4 "-";
  m ← field s 5 2; _ ← sep s 7 "-";
  d ← field s 8 2; _ ← sep s 10 "T";
  hh ← field s 11 2; _ ← sep s 13 ":";
  mm ← field s 14 2; _ ← sep s 16 ":";
  ss ← field s 17 2;
  us ← (if Nat.eqb (String.length s) 19 then Some 0
        else if Nat.eqb (String.length s) 26
             then _ ← sep s 19 "."; field s 20 6
             else None);
  _ ← guard ((1 <=? y) && (1 <=? m) && (m <=? 12) && (1 <=? d)
             && (d <=? days_in_month y m)
             && (hh <? 24) && (mm <? 60) && (ss <? 60));
  Some ((((days_from_civil y m d * 24 + hh) * 60 + mm) * 60 + ss) * MICRO + us).

(** [datetime.timestamp()] of a naive datetime: the whole seconds, as a
    float, plus [microsecond / 1e6] *)
Definition seconds (us : Z) : float :=
  (float_of_int (us / MICRO) + float_of_int (us mod MICRO) / 1000000)%float.

(** [datetime.fromisoformat(s).timestamp()].  A [datetime] ends with the
    year 9999, so the seconds are a finite float; the test says so. *)
Definition fromisoformat (s : string) : option float :=
  us ← microseconds s;
  if PrimFloat.is_finite (seconds us) then Some (seconds us) else None.

End Iso.

(** ** Floating-point helpers *)

Module PyFloat.

(** nearest integer to [n / d] for [d > 0], ties to the even one *)
Definition round_half_even (n d : Z) : Z :=
  let q := n / d in
  let r := n mod d in
  match 2 * r ?= d with
  | Lt => q
  | Gt => q + 1
  | Eq => if Z.even q then q else q + 1
  end.

(** [round(x, 3)] on a float: nans, infinities and zeros round to
    themselves; a finite [x = m * 2^e] goes to the binary64 number nearest
    to [n / 1000], [n] the integer nearest to [1000 * x] (ties to even, on
    the exact value of [x]).  From [2^53 / 1000] on, binary64 numbers are
    at least [2^-9] apart and [x] is its own result. *)
Definition py_round3 (x : float) : float :=
  match Prim2SF x with
  | S754_finite s m e =>
      let n := if 0 <=? e then Z.pos m * 1000 * 2 ^ e
               else round_half_even (Z.pos m * 1000) (2 ^ (- e)) in
      if n <? 2 ^ 53 then
        let a := (PrimFloat.of_uint63 (Uint63.of_Z n) / 1000)%float in
        if s then (- a)%float else a
      else x
  | _ => x
  end.

(** [astype("float32")]: the binary32 number nearest to [x], as a float *)
Definition float32 (x : float) : float :=
  match Prim2SF x with
  | S754_finite s m e =>
      SF2Prim (binary_normalize 24 128 (if s then Z.neg m else Z.pos m) e s)
  | _ => x
  end.

(** binary32 arithmetic: the binary64 result rounded once more *)
Definition add32 (a b : float) : float := float32 (a + b)%float.
Definition mul32 (a b : float) : float := float32 (a * b)%float.
Definition div32 (a b : float) : float := float32 (a / b)%float.
Definition sqrt32 (a : float) : float := float32 (PrimFloat.sqrt a).

(** [float(n)] for a small natural number *)
Definition of_nat (n : nat) : float :=
  PrimFloat.of_uint63 (Uint63.of_Z (Z.of_nat n)).

End PyFloat.

(** ** NumPy on one-dimensional float32 arrays

    NumPy leaves the order of accumulation of [np.dot] and
    [np.linalg.norm] to the BLAS library; sums are taken left to right
    here. *)

Module Np.
Import PyFloat.

Abbreviation array := (list float).

Definition astype32 (a : array) : array := map float32 a.

Definition dot_raw (a b : array) : float :=
  fold_left add32 (zip_with mul32 a b) 0%float.

(** [np.dot(a, b)]: raises when the shapes differ *)
Definition dot (a b : array) : py float :=
  if Nat.eqb (length a) (length b) then Return (dot_raw a b)
  else Raise (ValueError "shapes not aligned").

(** [np.linalg.norm(a)] *)
Definition norm (a : array) : float := sqrt32 (dot_raw a a).

(** [a / s] *)
Definition div_scalar (a : array) (s : float) : array :=
  map (fun x => div32 x s) a.

(** [np.stack(embs, axis=0)]: the rows, when there is one and all have
    the shape of the first *)
Definition stack (embs : list array) : py (list array) :=
  match embs with
  | [] => Raise (ValueError "need at least one array to stack")
  | a :: _ =>
      if forallb (fun b => Nat.eqb (length b) (length a)) embs
      then Return embs
      else Raise (ValueError "all input arrays must have the same shape")
  end.

(** [np.mean(m, axis=0)] of a stacked matrix: the rows are added up one
    after the other and the sum is divided by their number *)
Definition mean_axis0 (m : list array) : array :=
  match m with
  | [] => []
  | a :: rest =>
      div_scalar (fold_left (zip_with add32) rest a) (of_nat (length m))
  end.

End Np.

(** the float [1e-9] *)
Definition EPS : float := 0x1.12e0be826d695p-30%float.

(** [cosine(a, b)] *)
Definition cosine (a b : Np.array) : py float :=
  let a := Np.astype32 a in
  let b := Np.astype32 b in
  let an := Np.div_scalar a (PyFloat.add32 (Np.norm a) EPS) in
  let bn := Np.div_scalar b (PyFloat.add32 (Np.norm b) EPS) in
  Np.dot an bn.

(** ** Python's [max]

    [max(xs, key=k)] keeps the first item and replaces it by a later one
    only when that one's key is greater ([>]): among items with the
    greatest key, the first in iteration order is returned. *)

Fixpoint max_from {A K} (gt : K -> K -> bool) (key : A -> K)
    (best : A) (xs : list A) : A :=
  match xs with
  | [] => best
  | x :: rest => max_from gt key (if gt (key x) (key best) then x else best) rest
  end.

Definition py_max {A K} (gt : K -> K -> bool) (key : A -> K)
    (xs : list A) : py A :=
  match xs with
  | [] => Raise (ValueError "max() arg is an empty sequence")
  | x :: rest => Return (max_from gt key x rest)
  end.

(** [a > b] on floats *)
Definition float_gt (a b : float) : bool := PrimFloat.ltb b a.

(** [a >= b] on floats *)
Definition float_ge (a b : float) : bool := PrimFloat.leb b a.

(** [a > b] on ints *)
Definition int_gt (a b : Z) : bool := b <? a.

(** ** Dictionaries in insertion order *)

Definition dict (V : Type) := list (string * V).

(** [d.get(k)] *)
Fixpoint dict_get {V} (d : dict V) (k : string) : option V :=
  match d with
  | [] => None
  | (k', v) :: rest => if String.eqb k' k then Some v else dict_get rest k
  end.

(** [d[k] = v]: an existing key keeps its place, a new one goes last *)
Fixpoint dict_set {V} (d : dict V) (k : string) (v : V) : dict V :=
  match d with
  | [] => [(k, v)]
  | (k', v') :: rest =>
      if String.eqb k' k then (k, v) :: rest else (k', v') :: dict_set rest k v
  end.

(** [list(d.keys())] *)
Definition dict_keys {V} (d : dict V) : list string := map fst d.

(** ** Files

    A JSON file is absent, holds the serialization of a value, or holds a
    proper prefix of one (possibly nothing), which [json.loads] refuses.
    [Path.write_text] opens the file for writing, which truncates it, and
    then writes the text. *)

Inductive file (A : Type) : Type :=
| NoFile
| Whole (a : A)
| Partial.
Arguments NoFile {A}.
Arguments Whole {A} a.
Arguments Partial {A}.

Inductive io_step (A : Type) : Type :=
| Open_w
| Write_all (data : A).
Arguments Open_w {A}.
Arguments Write_all {A} data.

Definition io_apply {A} (f : file A) (s : io_step A) : file A :=
  match s with
  | Open_w => Partial
  | Write_all data => Whole data
  end.

Definition run_io {A} (steps : list (io_step A)) (f : file A) : file A :=
  fold_left io_apply steps f.

(** [path.write_text(json.dumps(data, indent=2))] *)
Definition write_text {A} (data : A) : list (io_step A) :=
  [Open_w; Write_all data].

(** what the file holds if the process stops after [k] steps of the write *)
Definition crash_state {A} (steps : list (io_step A)) (f : file A) (k : nat)
  : file A :=
  run_io (take k steps) f.

(** ** Events and the gallery *)

(** the body of [POST /events] *)
Record Event : Type := {
  ev_person : string;
  ev_score : float;
  ev_camera : string;
  ev_timestamp : option string
}.

(** an entry of [EVENTS] *)
Record event_row : Type := {
  person : string;
  score : float;
  camera : string;
  timestamp : string
}.

Definition gallery := dict Np.array.

Definition save_events (EVENTS : list event_row)
  : list (io_step (list event_row)) :=
  write_text EVENTS.

Definition write_gallery (d : gallery) : list (io_step gallery) :=
  write_text d.

(** [load_events()]: the value [EVENTS] gets at startup *)
Definition load_events (events_json : file (list event_row))
  : list event_row :=
  match events_json with
  | Whole evs => evs
  | Partial => []
  | NoFile => []
  end.

Definition read_gallery (gallery_json : file gallery) : py gallery :=
  match gallery_json with
  | NoFile => Return []
  | Whole d => Return d
  | Partial => Raise JSONDecodeError
  end.

(** ** The service *)

Record world : Type := {
  EVENTS : list event_row;
  LAST_SEEN : gmap (string * string) float;
  events_json : file (list event_row);
  gallery_json : file gallery
}.

Definition startup (events_file : file (list event_row))
    (gallery_file : file gallery) : world :=
  {| EVENTS := load_events events_file;
     LAST_SEEN := ∅;
     events_json := events_file;
     gallery_json := gallery_file |}.

Inductive response : Type :=
| Ok_health
| Missing_name
| Error_response (status_code : Z) (error : string)
| Enrolled (enrolled : string) (images : nat) (people : list string)
| Matched (scores : dict float) (best_name : string) (best_score : float)
    (is_match : bool) (thr : float) (logged : bool)
| Event_status (status : string) (count : nat)
| Cleared
| Event_list (events : list event_row)
| Events_csv (header : list string) (rows : list (list string * float)).

(** a detected face: the box after [map(int, f.bbox)], and the embedding *)
Record face : Type := {
  bbox : Z * Z * Z * Z;
  embedding : Np.array
}.

Definition area (f : face) : Z :=
  let '(x1, y1, x2, y2) := bbox f in
  Z.max 0 (x2 - x1) * Z.max 0 (y2 - y1).

Definition response_400 (error : string) : response :=
  Error_response 400 error.

Section Service.

Variable fromisoformat : string -> option float.

(** decoded images; [cv2.imdecode(arr, cv2.IMREAD_COLOR)], [None] when the
    bytes are not an image; [face_app.get(img)] *)
Variable image : Type.
Variable imdecode : list Byte.byte -> option image.
Variable face_app_get : image -> list face.

Definition embed_image_bytes (b : list Byte.byte) : py Np.array :=
  match imdecode b with
  | None => Raise (ValueError "Cannot decode image")
  | Some img =>
      let faces := face_app_get img in
      match faces with
      | [] => Raise (ValueError "No face detected")
      | _ =>
          (* choose largest face *)
          do f_big <~ py_max int_gt area faces;
          Return (Np.astype32 (embedding f_big))
      end
  end.

(** the loop of [enroll]: [for uf in files: embs.append(embed_image_bytes(b))] *)
Fixpoint embed_files (files : list (list Byte.byte)) (embs : list Np.array)
  : py (list Np.array) :=
  match files with
  | [] => Return embs
  | b :: rest =>
      do e <~ embed_image_bytes b;
      embed_files rest (embs ++ [e])
  end.

(** [POST /enroll] *)
Definition enroll (name : string) (files : list (list Byte.byte))
    (w : world) : world * py response :=
  if negb (truthy (Some name)) then (w, Return Missing_name)
  else
    match read_gallery (gallery_json w) with
    | Raise e => (w, Raise e)
    | Return gal =>
    match embed_files files [] with
    | Raise e => (w, Raise e)
    | Return embs =>
    match embs with
    | [] => (w, Return (response_400 "no usable images"))
    | _ =>
    match Np.stack embs with
    | Raise e => (w, Raise e)
    | Return m =>
        let avg := Np.astype32 (Np.mean_axis0 m) in
        let gal := dict_set gal name avg in
        ({| EVENTS := EVENTS w;
            LAST_SEEN := LAST_SEEN w;
            events_json := events_json w;
            gallery_json := run_io (write_gallery gal) (gallery_json w) |},
         Return (Enrolled name (length embs) (dict_keys gal)))
    end end end end.

(** the dict comprehension of [match]:
    [{name: cosine(np.array(vec, dtype="float32"), q) for name, vec in gal.items()}] *)
Fixpoint score_all (gal : gallery) (q : Np.array) : py (dict float) :=
  match gal with
  | [] => Return []
  | (name, vec) :: rest =>
      do s <~ cosine (Np.astype32 vec) q;
      do ss <~ score_all rest q;
      Return ((name, s) :: ss)
  end.

Definition round_scores (scores : dict float) : dict float :=
  map (fun '(k, v) => (k, PyFloat.py_round3 v)) scores.

(** [EVENTS.append(row); save_events()] *)
Definition append_event (row : event_row) (LAST_SEEN' : gmap (string * string) float)
    (w : world) : world :=
  let EVENTS' := EVENTS w ++ [row] in
  {| EVENTS := EVENTS';
     LAST_SEEN := LAST_SEEN';
     events_json := run_io (save_events EVENTS') (events_json w);
     gallery_json := gallery_json w |}.

Definition set_LAST_SEEN (LAST_SEEN' : gmap (string * string) float) (w : world)
  : world :=
  {| EVENTS := EVENTS w;
     LAST_SEEN := LAST_SEEN';
     events_json := events_json w;
     gallery_json := gallery_json w |}.

(** [POST /match].  [utcnow_iso] is [datetime.utcnow().isoformat()] and
    [clock] the reading of [datetime.now(timezone.utc)] at the call. *)
Definition match_ (utcnow_iso : string) (clock : float)
    (file : list Byte.byte) (thr : float) (camera : string)
    (w : world) : world * py response :=
  match read_gallery (gallery_json w) with
  | Raise e => (w, Raise e)
  | Return gal =>
  match gal with
  | [] => (w, Return (response_400 "gallery empty, enroll first"))
  | _ =>
  match embed_image_bytes file with
  | Raise e => (w, Return (response_400 (str_exn e)))
  | Return q =>
  match score_all gal q with
  | Raise e => (w, Raise e)
  | Return scores =>
  (* max(scores, key=scores.get): the first item with the greatest value *)
  match py_max float_gt snd scores with
  | Raise e => (w, Raise e)
  | Return (best_name, best_score) =>
      let is_match := float_ge best_score thr in
      let reply logged :=
        Matched (round_scores scores) best_name
          (PyFloat.py_round3 best_score) is_match thr logged in
      (* Debounced auto-log for matches (with persistence) *)
      if is_match then
        let ts_iso := utcnow_iso in
        match _should_log fromisoformat clock best_name camera (Some ts_iso)
                (LAST_SEEN w) with
        | Raise e => (w, Raise e)
        | Return (true, LAST_SEEN') =>
            (append_event
               {| person := best_name;
                  score := PyFloat.py_round3 best_score;
                  camera := camera;
                  timestamp := ts_iso |} LAST_SEEN' w,
             Return (reply true))
        | Return (false, LAST_SEEN') =>
            (set_LAST_SEEN LAST_SEEN' w, Return (reply false))
        end
      else (w, Return (reply false))
  end end end end end.

(** [GET /events]: latest first *)
Definition list_events (w : world) : world * py response :=
  (w, Return (Event_list (rev (EVENTS w)))).

(** [ev.timestamp or datetime.utcnow().isoformat()] *)
Definition timestamp_or (ev : Event) (utcnow_iso : string) : string :=
  if truthy (ev_timestamp ev) then default "" (ev_timestamp ev)
  else utcnow_iso.

(** [POST /events] *)
Definition add_event (utcnow_iso : string) (clock : float) (ev : Event)
    (w : world) : world * py response :=
  let ts := timestamp_or ev utcnow_iso in
  match _should_log fromisoformat clock (ev_person ev) (ev_camera ev)
          (Some ts) (LAST_SEEN w) with
  | Raise e => (w, Raise e)
  | Return (true, LAST_SEEN') =>
      let w' :=
        append_event
          {| person := ev_person ev;
             score := PyFloat.py_round3 (ev_score ev);
             camera := ev_camera ev;
             timestamp := ts |} LAST_SEEN' w in
      (w', Return (Event_status "logged" (length (EVENTS w'))))
  | Return (false, LAST_SEEN') =>
      let w' := set_LAST_SEEN LAST_SEEN' w in
      (w', Return (Event_status "skipped_duplicate" (length (EVENTS w'))))
  end.

(** [POST /events/clear] *)
Definition clear_events (w : world) : world * py response :=
  ({| EVENTS := [];
      LAST_SEEN := LAST_SEEN w;
      events_json := run_io (save_events []) (events_json w);
      gallery_json := gallery_json w |},
   Return Cleared).

(** [GET /events/csv]: the header and one row per event, in list order *)
Definition events_csv (w : world) : world * py response :=
  (w, Return (Events_csv ["timestamp"; "camera"; "person"; "score"]
                (map (fun e => ([timestamp e; camera e; person e], score e))
                   (EVENTS w)))).

(** [GET /health] *)
Definition health (w : world) : world * py response :=
  (w, Return Ok_health).

(** ** Requests *)

Inductive request : Type :=
| GET_health
| POST_enroll (name : string) (files : list (list Byte.byte))
| POST_match (file : list Byte.byte) (thr : float) (camera : string)
| GET_events
| POST_events (ev : Event)
| POST_events_clear
| GET_events_csv.

(** one request served at the clock reading [(utcnow_iso, clock)] *)
Definition serve (utcnow_iso : string) (clock : float) (r : request) (w : world)
  : world * py response :=
  match r with
  | GET_health => health w
  | POST_enroll name files => enroll name files w
  | POST_match file thr camera => match_ utcnow_iso clock file thr camera w
  | GET_events => list_events w
  | POST_events ev => add_event utcnow_iso clock ev w
  | POST_events_clear => clear_events w
  | GET_events_csv => events_csv w
  end.

(** a run of the service: requests served one after the other *)
Fixpoint serve_all (rs : list (string * float * request)) (w : world) : world :=
  match rs with
  | [] => w
  | (utcnow_iso, clock, r) :: rest =>
      serve_all rest (fst (serve utcnow_iso clock r w))
  end.

End Service.

(** the request [ev] with another score *)
Definition with_score (ev : Event) (sc : float) : Event :=
  {| ev_person := ev_person ev;
     ev_score := sc;
     ev_camera := ev_camera ev;
     ev_timestamp := ev_timestamp ev |}.

(** the row [add_event] appends for a request *)
Definition row_of (ev : Event) (utcnow_iso : string) : event_row :=
  {| person := ev_person ev;
     score := PyFloat.py_round3 (ev_score ev);
     camera := ev_camera ev;
     timestamp := timestamp_or ev utcnow_iso |}.

(** ** The face crops of the local scripts, [recognizer/embed_local.py] and
    [detector/run_local_retina.py] *)

Module Crop.

(** a bound of a Python slice on a sequence of length [n]: a negative bound
    counts from the end, and bounds are clipped to the sequence *)
Definition slice_index (n i : Z) : Z :=
  if i <? 0 then Z.max 0 (i + n) else Z.min i n.

(** the length of [s[start:stop]] *)
Definition slice_len (n start stop : Z) : Z :=
  Z.max 0 (slice_index n stop - slice_index n start).

(** the rows and columns of [crop = img[y1c:y2c, x1c:x2c]] for an image of
    [h] rows and [w] columns *)
Definition crop_shape (h w : Z) (f : face) : Z * Z :=
  let '(x1, y1, x2, y2) := bbox f in
  let y1c := Z.max 0 y1 in
  let y2c := Z.min h y2 in
  let x1c := Z.max 0 x1 in
  let x2c := Z.min w x2 in
  (slice_len h y1c y2c, slice_len w x1c x2c).

(** [if crop.size]: the crop of a three-channel image is saved *)
Definition crop_saved (h w : Z) (f : face) : bool :=
  let '(rows, cols) := crop_shape h w f in
  negb (rows * cols * 3 =? 0).

End Crop.

(** ** Stand-ins for the decoder and the detector, for the examples

    An image is its bytes; the empty byte string does not decode; every
    byte other than [x00] is a face whose box is as wide as the byte and
    whose embedding is [(byte, 1)]. *)

Module Toy.

Definition image : Type := list Byte.byte.

Definition imdecode (b : list Byte.byte) : option image :=
  match b with
  | [] => None
  | _ => Some b
  end.

Definition face_of (b : Byte.byte) : face :=
  let n := Z.of_N (Byte.to_N b) in
  {| bbox := (0, 0, n, 1);
     embedding := [PrimFloat.of_uint63 (Uint63.of_Z n); 1%float] |}.

Definition face_app_get (img : image) : list face :=
  map face_of (filter (fun b => Byte.to_N b ≠ 0%N) img).

Definition blank : list Byte.byte := [Byte.x00].
Definition undecodable : list Byte.byte := [].
Definition portrait_a : list Byte.byte := [Byte.x03].
Definition portrait_b : list Byte.byte := [Byte.x01; Byte.x04].

Definition fresh : world := startup NoFile NoFile.

(** the service after enrolling Alice, and then Bob, from one portrait *)
Definition alice_enrolled : world :=
  Eval vm_compute in
    fst (enroll image imdecode face_app_get "alice" [portrait_a] fresh).

Definition two_enrolled : world :=
  Eval vm_compute in
    fst (enroll image imdecode face_app_get "bob" [portrait_a] alice_enrolled).

(** two sightings, and the service after the first was posted *)
Definition seen_bob : Event :=
  {| ev_person := "bob"; ev_score := 0.5; ev_camera := "cam1";
     ev_timestamp := Some "2024-03-01T12:00:00" |}.

Definition seen_unknown : Event :=
  {| ev_person := "unknown"; ev_score := 0.25; ev_camera := "cam1";
     ev_timestamp := None |}.

(** a sighting whose score is not a number *)
Definition seen_nan : Event :=
  {| ev_person := "bob"; ev_score := nan; ev_camera := "cam1";
     ev_timestamp := Some "2024-03-01T12:00:00" |}.

Definition one_event : world :=
  Eval vm_compute in
    fst (add_event Iso.fromisoformat "2024-03-01T12:00:05" 0 seen_bob fresh).

(** a query that stays below the threshold 2 *)
Definition low_reply : world * py response :=
  Eval vm_compute in
    match_ Iso.fromisoformat image imdecode face_app_get
      "2024-03-01T12:00:00" 0 portrait_b 2 "cam1" alice_enrolled.

(** two queries with the portrait both were enrolled from *)
Definition tie_reply1 : world * py response :=
  Eval vm_compute in
    match_ Iso.fromisoformat image imdecode face_app_get
      "2024-03-01T12:00:00" 0 portrait_a 0.5 "cam1" two_enrolled.

(** Bob enrolled from two portraits after Alice *)
Definition bob_reply : world * py response :=
  Eval vm_compute in
    enroll image imdecode face_app_get "bob" [portrait_a; portrait_b]
      alice_enrolled.

(** Alice's portrait matched at a threshold that is not a number *)
Definition nan_reply : world * py response :=
  Eval vm_compute in
    match_ Iso.fromisoformat image imdecode face_app_get
      "2024-03-01T12:00:00" 0 portrait_a nan "cam1" alice_enrolled.

Definition tie_reply2 : world * py response :=
  Eval vm_compute in
    match_ Iso.fromisoformat image imdecode face_app_get
      "2024-03-01T12:00:07" 5 portrait_a 2 "cam2" (fst tie_reply1).

End Toy.

(** ** Event times

    the time the debounce check reads off a stored event, and the property
    that the events of one (person, camera) key are stored in strictly
    increasing time, none within the window of the one stored before it
    for the key *)

Definition row_time (fromisoformat : string -> option float) (row : event_row)
  : option float :=
  fromisoformat (timestamp row).

Definition same_key (r1 r2 : event_row) : Prop :=
  person r1 = person r2 /\ camera r1 = camera r2.

Definition spaced (fromisoformat : string -> option float)
    (evs : list event_row) : Prop :=
  forall i j ri rj,
    (i < j)%nat -> evs !! i = Some ri -> evs !! j = Some rj ->
    same_key ri rj ->
    exists ti tj,
      row_time fromisoformat ri = Some ti /\
      row_time fromisoformat rj = Some tj /\
      (ti <? tj)%float = true /\
      ((forall k rk, (i < k < j)%nat -> evs !! k = Some rk ->
                     ~ same_key ri rk) ->
       (tj - ti <? float_of_int DEDUPE_WINDOW_SEC)%float = false).

(** every stored event has a readable time, not later than the time cached
    for its key, which is finite, and the last event stored for a key has
    the cached time *)
Definition covered (fromisoformat : string -> option float) (w : world)
  : Prop :=
  forall i row,
    EVENTS w !! i = Some row ->
    exists t last,
      row_time fromisoformat row = Some t /\
      LAST_SEEN w !! (person row, camera row) = Some last /\
      PrimFloat.is_finite last = true /\
      (t = last \/ (t <? last)%float = true) /\
      ((forall k rk, (i < k)%nat -> EVENTS w !! k = Some rk ->
                     ~ same_key row rk) ->
       t = last).

(** ** The command-line matcher, [recognizer/match.py] *)

Module Cli.

(** [SystemExit(msg)], an uncaught exception, or the values printed *)
Inductive result (A : Type) : Type :=
| Done (a : A)
| Exit (msg : string)
| Uncaught (e : exn).
Arguments Done {A} a.
Arguments Exit {A} msg.
Arguments Uncaught {A} e.

(** [norm(v)] *)
Definition norm (v : Np.array) : Np.array :=
  let v := Np.astype32 v in
  Np.div_scalar v (PyFloat.add32 (Np.norm v) EPS).

(** [cosine(a, b)] *)
Definition cosine (a b : Np.array) : py float :=
  Np.dot (norm a) (norm b).

(** the dict comprehension of [main] *)
Fixpoint score_all (gallery : gallery) (q : Np.array) : py (dict float) :=
  match gallery with
  | [] => Return []
  | (name, vec) :: rest =>
      do s <~ cosine (Np.astype32 vec) q;
      do ss <~ score_all rest q;
      Return ((name, s) :: ss)
  end.

(** what [main] prints: the rounded scores, the best name with its score,
    and whether the score reaches the threshold *)
Record printed : Type := {
  shown_scores : dict float;
  best : string;
  best_score : float;
  yes : bool
}.

Section Main.

(** [cv2.imread(str(img_path))], [None] when the file cannot be read;
    [app.get(img)] *)
Variable image : Type.
Variable imread : string -> option image.
Variable app_get : image -> list face.

(** [embed(app, img_path)]: the first detected face *)
Definition embed (img_path : string) : result Np.array :=
  match imread img_path with
  | None => Exit (String.append "Cannot read " img_path)
  | Some img =>
      match app_get img with
      | [] => Exit (String.append "No face in " img_path)
      | f :: _ => Done (Np.astype32 (embedding f))
      end
  end.

(** [main()], with [DB] the gallery file and [args] the image path and the
    threshold *)
Definition main (DB : file gallery) (image_path : string) (thr : float)
  : result printed :=
  match DB with
  | NoFile => Exit "Missing data/embeddings/gallery.json. Enroll first."
  | Partial => Uncaught JSONDecodeError
  | Whole gallery =>
      match gallery with
      | [] => Exit "Empty gallery. Enroll at least one person."
      | _ =>
          match embed image_path with
          | Exit msg => Exit msg
          | Uncaught e => Uncaught e
          | Done q =>
              match score_all gallery q with
              | Raise e => Uncaught e
              | Return scores =>
                  match py_max float_gt snd scores with
                  | Raise e => Uncaught e
                  | Return (best, best_score) =>
                      Done {| shown_scores :=
                                map (fun '(k, v) => (k, PyFloat.py_round3 v))
                                  scores;
                              best := best;
                              best_score := best_score;
                              yes := float_ge best_score thr |}
                  end
              end
          end
      end
  end.

End Main.

End Cli.

(** ** The frame simulator, [detector/folder_worker.py] *)

Module Worker.

(** a line of the local CSV log *)
Inductive csv_line (R : Type) : Type :=
| Header (fieldnames : list string)
| Row (r : R).
Arguments Header {R} fieldnames.
Arguments Row {R} r.

Definition fieldnames : list string :=
  ["ts"; "camera"; "image"; "best_name"; "best_score"; "match"; "thr"].

(** [log_local(csv_path, row)] on the file at [csv_path] ([None] when it
    does not exist): the header goes in front of the row when the file is
    new, and the row is appended *)
Definition log_local {R} (csv_file : option (list (csv_line R))) (row : R)
  : option (list (csv_line R)) :=
  let new_file := negb (bool_decide (is_Some csv_file)) in
  Some (default [] csv_file
        ++ (if new_file then [Header fieldnames] else [])
        ++ [Row row]).

(** the body [post_event] sends for a frame:
    [post_event(api_url, name if match else "unknown", score, args.camera)] *)
Definition frame_event (name : string) (score : float) (is_match : bool)
    (camera : string) : Event :=
  {| ev_person := if is_match then name else "unknown";
     ev_score := score;
     ev_camera := camera;
     ev_timestamp := None |}.

End Worker.

(** * Checks of the model *)

Example iso_epoch : Iso.fromisoformat "1970-01-01T00:00:00" = Some 0%float.
Proof. reflexivity. Qed.

Example iso_29_999 :
  Iso.microseconds "1970-01-01T00:00:29.999000" = Some 29999000 /\
  Iso.fromisoformat "1970-01-01T00:00:29.999000" = Some (29999 / 1000)%float.
Proof. split; reflexivity. Qed.

Example iso_2024 :
  Iso.microseconds "2024-03-01T12:00:00" = Some (1709294400 * MICRO) /\
  Iso.fromisoformat "2024-03-01T12:00:00" = Some 1709294400%float.
Proof. split; reflexivity. Qed.

Example iso_bad : Iso.fromisoformat "yesterday" = None.
Proof. reflexivity. Qed.

Example round3_half_even :
  PyFloat.py_round3 0.8125 = (812 / 1000)%float /\
  PyFloat.py_round3 (-0.8125) = (-812 / 1000)%float /\
  PyFloat.py_round3 0.4375 = (438 / 1000)%float.
Proof. repeat split; vm_compute; reflexivity. Qed.

Example round3_special :
  PyFloat.py_round3 nan = nan /\
  PyFloat.py_round3 infinity = infinity /\
  PyFloat.py_round3 0x1p60 = 0x1p60%float /\
  PyFloat.py_round3 (-0x1p-20) = (-0)%float.
Proof. repeat split; vm_compute; reflexivity. Qed.

Example float32_tenth :
  PyFloat.float32 (1 / 10) = 0x1.99999ap-4%float /\
  PyFloat.float32 0x1p200 = infinity /\
  PyFloat.float32 0x1p-200 = 0%float.
Proof. repeat split; vm_compute; reflexivity. Qed.

Example cosine_same : cosine [1; 0]%float [1; 0]%float = Return 1%float.
Proof. vm_compute; reflexivity. Qed.

Example cosine_zero_vector : cosine [0; 0]%float [3; 1]%float = Return 0%float.
Proof. vm_compute; reflexivity. Qed.

Example cosine_shapes :
  cosine [3; 1]%float [3; 1; 2]%float = Raise (ValueError "shapes not aligned").
Proof. vm_compute; reflexivity. Qed.

Example mean_two_rows :
  Np.mean_axis0 [[1; 2]; [3; 5]]%float = [2; 3.5]%float.
Proof. vm_compute; reflexivity. Qed.

Example largest_face_wins :
  embed_image_bytes Toy.image Toy.imdecode Toy.face_app_get
    [Byte.x01; Byte.x04; Byte.x04; Byte.x02]
  = Return [4; 1]%float.
Proof. vm_compute; reflexivity. Qed.

(** of two names with the same score, the one that comes first wins *)
Example tie_follows_gallery_order :
  py_max float_gt snd [("alice", 1%float); ("bob", 1%float)]
  = Return ("alice", 1%float) /\
  py_max float_gt snd [("bob", 1%float); ("alice", 1%float)]
  = Return ("bob", 1%float).
Proof. split; reflexivity. Qed.

(** binary64 seconds near 2^31 are 2^-22 apart: microseconds are rounded *)
Example seconds_2038 :
  (Iso.seconds 2147483663000003 - Iso.seconds 2147483633000003)%float
  = (30 - 1 / 4194304)%float.
Proof. reflexivity. Qed.

(** * Properties *)

(** ** Binary64 numbers

    Rounding a magnitude keeps its sign, so the difference of two finite
    numbers is a number whose sign is the sign of the exact difference;
    the mantissa of a binary64 number has at most 53 bits, and exactly 53
    above the least exponent. *)

Lemma shr_1_nonneg mrs : 0 <= shr_m mrs -> 0 <= shr_m (shr_1 mrs).
Proof.
  destruct mrs as [m r s]. destruct m as [|[p|p|]|p]; simpl; lia.
Qed.

Lemma iter_pos_invariant {A} (P : A -> Prop) (f : A -> A) :
  (forall x, P x -> P (f x)) ->
  forall n x, P x -> P (SpecFloat.iter_pos f n x).
Proof. intros Hf. induction n; simpl; auto. Qed.

Lemma shr_nonneg mrs e n : 0 <= shr_m mrs -> 0 <= shr_m (fst (shr mrs e n)).
Proof.
  intros H. destruct n; simpl; trivial.
  apply (iter_pos_invariant (fun r => 0 <= shr_m r)); auto using shr_1_nonneg.
Qed.

Lemma shr_fexp_nonneg m e l :
  0 <= m -> 0 <= shr_m (fst (shr_fexp prec emax m e l)).
Proof.
  intros H. unfold shr_fexp. apply shr_nonneg.
  destruct l as [|[]]; simpl; assumption.
Qed.

Lemma round_nearest_even_nonneg m l : 0 <= m -> 0 <= round_nearest_even m l.
Proof.
  intros H. destruct l as [|[]]; simpl; try destruct (Z.even m); lia.
Qed.

Lemma binary_round_aux_sign sx m e l :
  0 <= m -> has_sign sx (binary_round_aux prec emax sx m e l).
Proof.
  intros H. unfold binary_round_aux.
  pose proof (shr_fexp_nonneg m e l H) as H1.
  destruct (shr_fexp prec emax m e l) as [mrs' e']. simpl in H1.
  pose proof (shr_fexp_nonneg _ e' loc_Exact
                (round_nearest_even_nonneg _ (loc_of_shr_record mrs') H1)) as H2.
  destruct (shr_fexp prec emax _ e' loc_Exact) as [mrs'' e'']. simpl in H2.
  destruct (shr_m mrs'') as [|p|p]; simpl; trivial.
  - destruct (e'' <=? emax - prec); reflexivity.
  - lia.
Qed.

Lemma binary_normalize_sign m e szero :
  match m with
  | Z0 => binary_normalize prec emax m e szero = S754_zero szero
  | Zpos _ => has_sign false (binary_normalize prec emax m e szero)
  | Zneg _ => has_sign true (binary_normalize prec emax m e szero)
  end.
Proof.
  destruct m as [|p|p]; simpl; trivial; unfold binary_round;
    destruct (shl_align _ _ _) as [mz ez];
    apply binary_round_aux_sign; lia.
Qed.

Lemma digits2_pos_bounds m :
  2 ^ (Z.pos (digits2_pos m) - 1) <= Z.pos m < 2 ^ Z.pos (digits2_pos m).
Proof.
  induction m as [p IH|p IH|]; simpl digits2_pos.
  - rewrite Pos2Z.inj_succ.
    replace (Z.succ (Z.pos (digits2_pos p)) - 1)
      with (Z.succ (Z.pos (digits2_pos p) - 1)) by lia.
    rewrite !Z.pow_succ_r by lia. lia.
  - rewrite Pos2Z.inj_succ.
    replace (Z.succ (Z.pos (digits2_pos p)) - 1)
      with (Z.succ (Z.pos (digits2_pos p) - 1)) by lia.
    rewrite !Z.pow_succ_r by lia. lia.
  - simpl. lia.
Qed.

Lemma bounded_inv m e :
  bounded prec emax m e = true ->
  Z.pos m < 2 ^ 53 /\ -1074 <= e /\ (-1074 < e -> 2 ^ 52 <= Z.pos m).
Proof.
  unfold bounded, canonical_mantissa, fexp, emin, prec, emax.
  intros [Hc _]%andb_prop. apply Z.eqb_eq in Hc.
  pose proof (digits2_pos_bounds m) as [Hlo Hhi].
  set (d := Z.pos (digits2_pos m)) in *.
  assert (Hd : 0 < d) by (unfold d; lia).
  destruct (Z.max_spec (d + e - 53) (3 - 1024 - 53)) as [[? E]|[? E]];
    rewrite E in Hc.
  - assert (d < 53 \/ d = 53) as [Hd53 | Hd53] by lia.
    + split; [|split; [lia|lia]].
      eapply Z.lt_le_trans; [exact Hhi|].
      apply Z.pow_le_mono_r; lia.
    + split; [|split; [lia|lia]].
      rewrite Hd53 in Hhi. exact Hhi.
  - assert (d = 53) as Hd53 by lia. rewrite Hd53 in *.
    split; [exact Hhi|]. split; [lia|]. intros _. exact Hlo.
Qed.

Lemma shl_align_fst mx ex ez :
  ez <= ex -> Z.pos (fst (shl_align mx ex ez)) = Z.pos mx * 2 ^ (ex - ez).
Proof.
  intros H. unfold shl_align.
  destruct (ez - ex) as [|d|d] eqn:E; simpl.
  - replace (ex - ez) with 0 by lia. lia.
  - lia.
  - replace (ex - ez) with (Z.pos d) by lia.
    change (Pos.iter xO mx d) with (shift_pos d mx).
    rewrite shift_pos_correct.
    change (Z.pow_pos 2 d) with (2 ^ Z.pos d). lia.
Qed.

(** the difference of two finite numbers is a number *)
Lemma SFsub_sign x y :
  SFfinite x -> SFfinite y -> exists s, has_sign s (SFsub prec emax x y).
Proof.
  destruct x as [sx|sx| |sx mx ex]; try contradiction;
  destruct y as [sy|sy| |sy my ey]; try contradiction; intros _ _;
    unfold SFsub.
  - destruct sx, sy; eexists; reflexivity.
  - eexists; reflexivity.
  - eexists; reflexivity.
  - match goal with |- context [binary_normalize _ _ ?M ?e ?z] =>
      pose proof (binary_normalize_sign M e z) as HM; destruct M
    end.
    + rewrite HM. eexists; reflexivity.
    + eauto.
    + eauto.
Qed.

(** a finite number that is not less than a positive window after another
    one is the greater of the two *)
Lemma SFsub_later x y mw ew :
  valid_binary x = true -> valid_binary y = true ->
  SFfinite x -> SFfinite y ->
  SFltb (SFsub prec emax x y) (S754_finite false mw ew) = false ->
  SFltb y x = true.
Proof.
  intros Vx Vy Fx Fy.
  destruct x as [sx|sx| |sx mx ex]; try contradiction;
  destruct y as [sy|sy| |sy my ey]; try contradiction;
    clear Fx Fy.
  - destruct sx, sy; simpl; discriminate.
  - destruct sy; simpl; trivial; discriminate.
  - destruct sx; simpl; trivial; discriminate.
  - simpl in Vx, Vy.
    apply bounded_inv in Vx as (Hx & Hex & Hxn).
    apply bounded_inv in Vy as (Hy & Hey & Hyn).
    unfold SFsub.
    set (ez := Z.min ex ey).
    pose proof (shl_align_fst mx ex ez ltac:(lia)) as Ex.
    pose proof (shl_align_fst my ey ez ltac:(lia)) as Ey.
    set (M := cond_Zopp sx (Z.pos (fst (shl_align mx ex ez)))
              - cond_Zopp sy (Z.pos (fst (shl_align my ey ez)))).
    pose proof (binary_normalize_sign M ez false) as HM.
    intros Hlt.
    assert (0 < M) as Mpos.
    { destruct M as [|p|p]; [| lia |].
      - rewrite HM in Hlt. discriminate.
      - destruct (binary_normalize prec emax (Z.neg p) ez false)
          as [s|s| |s m e]; simpl in HM; subst; try contradiction;
          discriminate. }
    clear HM Hlt. unfold M in Mpos. rewrite Ex, Ey in Mpos. clear M Ex Ey.
    assert (forall a b, a < b -> 2 <= 2 ^ (b - a)) as Hpow.
    { intros a b Hab. change 2 with (2 ^ 1) at 1.
      apply Z.pow_le_mono_r; lia. }
    unfold SFltb, SFcompare.
    destruct sx, sy; simpl in Mpos |- *; trivial.
    + destruct (Z.compare_spec ey ex) as [->|Hlt|Hgt]; trivial.
      * unfold ez in Mpos. rewrite Z.min_id, Z.sub_diag in Mpos.
        change (Pos.compare_cont Eq my mx) with (my ?= mx)%positive.
        assert (my > mx)%positive as -> by lia. reflexivity.
      * exfalso. unfold ez in Mpos. rewrite Z.min_r in Mpos by lia.
        rewrite Z.sub_diag in Mpos. specialize (Hpow _ _ Hlt).
        specialize (Hxn ltac:(lia)). nia.
    + lia.
    + destruct (Z.compare_spec ey ex) as [->|Hlt|Hgt]; trivial.
      * unfold ez in Mpos. rewrite Z.min_id, Z.sub_diag in Mpos.
        change (Pos.compare_cont Eq my mx) with (my ?= mx)%positive.
        assert (my < mx)%positive as -> by lia. reflexivity.
      * exfalso. unfold ez in Mpos. rewrite Z.min_l in Mpos by lia.
        rewrite Z.sub_diag in Mpos. specialize (Hpow _ _ Hgt).
        specialize (Hyn ltac:(lia)). nia.
Qed.

(** the order of binary64 numbers *)

Lemma SFcompare_refl x : (exists s, has_sign s x) -> SFcompare x x = Some Eq.
Proof.
  intros [s0 Hs]. destruct x as [s|s| |s m e]; simpl in *; try contradiction.
  - reflexivity.
  - now destruct s.
  - destruct s; rewrite Z.compare_refl, Pos.compare_cont_refl; reflexivity.
Qed.

Lemma SFcompare_antisym x y c :
  SFcompare x y = Some c -> SFcompare y x = Some (CompOpp c).
Proof.
  destruct x as [sx|sx| |sx mx ex], y as [sy|sy| |sy my ey]; simpl;
    repeat match goal with s : bool |- _ => destruct s end;
    simpl; intros [= <-]; try reflexivity;
    rewrite (Z.compare_antisym ex ey);
    change (Pos.compare_cont Eq my mx) with (my ?= mx)%positive;
    change (Pos.compare_cont Eq mx my) with (mx ?= my)%positive;
    rewrite (Pos.compare_antisym mx my);
    destruct (ex ?= ey); simpl; trivial;
    destruct (mx ?= my)%positive; reflexivity.
Qed.

Lemma SFltb_leb x y : SFltb x y = true -> SFleb x y = true.
Proof. unfold SFltb, SFleb. destruct (SFcompare x y) as [[]|]; congruence. Qed.

Lemma SFltb_false_leb x y :
  (exists s, has_sign s x) -> (exists s, has_sign s y) ->
  SFltb x y = false <-> SFleb y x = true.
Proof.
  intros [sx Hx] [sy Hy]. unfold SFltb, SFleb.
  destruct (SFcompare x y) as [c|] eqn:E.
  - rewrite (SFcompare_antisym _ _ _ E). destruct c; simpl; split; congruence.
  - destruct x, y; simpl in *; try contradiction; discriminate E.
Qed.

Lemma SFltb_leb_trans a b c :
  SFltb a b = true -> SFleb b c = true -> SFleb a c = true.
Proof.
  unfold SFltb, SFleb.
  destruct a as [sa|sa| |sa ma ea], b as [sb|sb| |sb mb eb],
           c as [sc|sc| |sc mc ec]; simpl;
    repeat match goal with s : bool |- _ => destruct s end;
    simpl; try discriminate; try reflexivity;
    rewrite ?Pos.compare_cont_spec; simpl;
    destruct (Z.compare_spec ea eb), (Z.compare_spec eb ec),
             (Z.compare_spec ea ec);
    try discriminate; try reflexivity; try lia; subst;
    destruct (Pos.compare_spec ma mb), (Pos.compare_spec mb mc),
             (Pos.compare_spec ma mc);
    simpl; try discriminate; try reflexivity; try lia.
Qed.

(** the same facts on floats *)

Lemma is_finite_SF (x : float) :
  PrimFloat.is_finite x = true -> SFfinite (Prim2SF x).
Proof.
  unfold PrimFloat.is_finite, PrimFloat.is_nan, PrimFloat.is_infinity.
  rewrite !FloatAxioms.eqb_spec, abs_spec.
  replace (Prim2SF infinity) with (S754_infinity false) by reflexivity.
  destruct (Prim2SF x) as [s|[|]| |s m e]; simpl; trivial; discriminate.
Qed.

Lemma SFfinite_sign x : SFfinite x -> exists s, has_sign s x.
Proof. destruct x; simpl; try contradiction; eauto. Qed.

Lemma window_SF :
  Prim2SF (float_of_int DEDUPE_WINDOW_SEC)
  = S754_finite false 8444249301319680 (-48).
Proof. reflexivity. Qed.

(** a timestamp that is not within the window of another one is the later
    of the two *)
Lemma sub_later (a b : float) :
  PrimFloat.is_finite a = true -> PrimFloat.is_finite b = true ->
  (a - b <? float_of_int DEDUPE_WINDOW_SEC)%float = false ->
  (b <? a)%float = true.
Proof.
  intros Ha%is_finite_SF Hb%is_finite_SF.
  rewrite !ltb_spec, sub_spec, window_SF.
  apply SFsub_later; auto using Prim2SF_valid.
Qed.

(** [not (delta < window)] is [window <= delta] on finite timestamps *)
Lemma not_within_window (a b : float) :
  PrimFloat.is_finite a = true -> PrimFloat.is_finite b = true ->
  (a - b <? float_of_int DEDUPE_WINDOW_SEC)%float = false <->
  (float_of_int DEDUPE_WINDOW_SEC <=? a - b)%float = true.
Proof.
  intros Ha%is_finite_SF Hb%is_finite_SF.
  rewrite ltb_spec, leb_spec, sub_spec, window_SF.
  apply SFltb_false_leb.
  - apply SFsub_sign; assumption.
  - exists false. reflexivity.
Qed.

Lemma leb_refl (a : float) :
  PrimFloat.is_finite a = true -> (a <=? a)%float = true.
Proof.
  intros Ha%is_finite_SF%SFfinite_sign. rewrite leb_spec. unfold SFleb.
  now rewrite SFcompare_refl.
Qed.

Lemma ltb_leb (a b : float) : (a <? b)%float = true -> (a <=? b)%float = true.
Proof. rewrite ltb_spec, leb_spec. apply SFltb_leb. Qed.

Lemma ltb_leb_trans (a b c : float) :
  (a <? b)%float = true -> (b <=? c)%float = true -> (a <=? c)%float = true.
Proof. rewrite ltb_spec, !leb_spec. apply SFltb_leb_trans. Qed.

(** the reader of the examples yields finite timestamps *)
Lemma Iso_fromisoformat_finite s t :
  Iso.fromisoformat s = Some t -> PrimFloat.is_finite t = true.
Proof.
  unfold Iso.fromisoformat. destruct (Iso.microseconds s) as [us|]; simpl.
  - destruct (PrimFloat.is_finite (Iso.seconds us)) eqn:E; intros [= <-].
    exact E.
  - discriminate.
Qed.

(** ** The debounce cache *)

Section DebounceFacts.

Variable fromisoformat : string -> option float.

Implicit Types (LS : gmap (string * string) float) (t last : float).

Lemma should_log_unfold clock person camera ts_iso LS t :
  now_timestamp fromisoformat clock ts_iso = Return t ->
  _should_log fromisoformat clock person camera ts_iso LS =
    match LS !! (person, camera) with
    | Some last =>
        if (t - last <? float_of_int DEDUPE_WINDOW_SEC)%float
        then Return (false, LS)
        else Return (true, <[(person, camera) := t]> LS)
    | None => Return (true, <[(person, camera) := t]> LS)
    end.
Proof.
  intros Hnow. unfold _should_log. rewrite Hnow. simpl.
  destruct (LS !! (person, camera)) as [last|]; reflexivity.
Qed.

Lemma should_log_raises clock person camera ts_iso LS e :
  now_timestamp fromisoformat clock ts_iso = Raise e ->
  _should_log fromisoformat clock person camera ts_iso LS = Raise e.
Proof. intros Hnow. unfold _should_log. now rewrite Hnow. Qed.

(** what a returning call did to the cache *)
Lemma should_log_inv clock person camera ts_iso LS b LS' :
  _should_log fromisoformat clock person camera ts_iso LS = Return (b, LS') ->
  exists t,
    now_timestamp fromisoformat clock ts_iso = Return t /\
    ((b = false /\ LS' = LS /\
      exists last,
        LS !! (person, camera) = Some last /\
        (t - last <? float_of_int DEDUPE_WINDOW_SEC)%float = true) \/
     (b = true /\ LS' = <[(person, camera) := t]> LS /\
      forall last,
        LS !! (person, camera) = Some last ->
        (t - last <? float_of_int DEDUPE_WINDOW_SEC)%float = false)).
Proof.
  intros H.
  destruct (now_timestamp fromisoformat clock ts_iso) as [t|e] eqn:Hnow.
  2: { rewrite (should_log_raises _ _ _ _ _ _ Hnow) in H. discriminate. }
  rewrite (should_log_unfold _ _ _ _ _ _ Hnow) in H.
  exists t. split; [reflexivity|].
  destruct (LS !! (person, camera)) as [last|] eqn:Hlast.
  - destruct (t - last <? float_of_int DEDUPE_WINDOW_SEC)%float eqn:Hd;
      inversion H; subst.
    + left. eauto.
    + right. repeat split; trivial. intros ? [= <-]. assumption.
  - inversion H; subst. right. repeat split; trivial. discriminate.
Qed.

(** the timestamp a call reads is finite when the library's and the
    clock's are *)
Lemma now_timestamp_finite clock ts_iso t :
  (forall s t, fromisoformat s = Some t -> PrimFloat.is_finite t = true) ->
  PrimFloat.is_finite clock = true ->
  now_timestamp fromisoformat clock ts_iso = Return t ->
  PrimFloat.is_finite t = true.
Proof.
  intros Hlib Hclock. unfold now_timestamp, parse_timestamp.
  destruct (truthy ts_iso).
  - destruct (fromisoformat (default "" ts_iso)) as [t'|] eqn:E;
      intros [= <-]. eauto.
  - intros [= <-]. assumption.
Qed.

(** a key stays in the cache, and its time stays or moves forward by at
    least the window *)
Lemma should_log_keeps clock person camera ts_iso LS b LS' key last :
  (forall s t, fromisoformat s = Some t -> PrimFloat.is_finite t = true) ->
  PrimFloat.is_finite clock = true ->
  _should_log fromisoformat clock person camera ts_iso LS = Return (b, LS') ->
  LS !! key = Some last ->
  PrimFloat.is_finite last = true ->
  exists last',
    LS' !! key = Some last' /\ PrimFloat.is_finite last' = true /\
    (last' = last \/
     ((last <? last')%float = true /\
      (last' - last <? float_of_int DEDUPE_WINDOW_SEC)%float = false)).
Proof.
  intros Hlib Hclock H Hkey Hfin.
  destruct (should_log_inv _ _ _ _ _ _ _ H)
    as (t & Hnow & [(_ & -> & _) | (_ & -> & Hwin)]).
  - eauto.
  - pose proof (now_timestamp_finite _ _ _ Hlib Hclock Hnow) as Ht.
    destruct (decide ((person, camera) = key)) as [<-|Hne].
    + exists t. rewrite lookup_insert_eq. split; [reflexivity|].
      split; [assumption|]. right. specialize (Hwin _ Hkey).
      split; [|assumption]. now apply sub_later.
    + exists last. rewrite lookup_insert_ne by assumption. eauto.
Qed.

End DebounceFacts.

(** C1, as the code has it.  The debounce check works on binary64 seconds,
    the value of [datetime.timestamp()].  At the timestamp [t] it returns
    true exactly when the key (person, camera) has no last-accepted
    timestamp or the binary64 difference [t - last] is at least the window,
    30; it records [t] for the key when it returns true and leaves the
    cache alone when it returns false.  From an unseen key, a call at [t]
    is accepted and a following call at [t1] is accepted exactly when the
    binary64 difference [t1 - t] is at least 30: after [t = 0], a call at
    29.999 is suppressed and a call at 30.001 is accepted. *)
Theorem should_log_debounce
    (fromisoformat : string -> option float) (clock : float)
    (person camera : string) (ts_iso : option string) (t : float)
    (LS : gmap (string * string) float) :
  now_timestamp fromisoformat clock ts_iso = Return t ->
  PrimFloat.is_finite t = true ->
  (forall last, LS !! (person, camera) = Some last ->
                PrimFloat.is_finite last = true) ->
  (exists b LS',
     _should_log fromisoformat clock person camera ts_iso LS = Return (b, LS') /\
     (b = true <->
        LS !! (person, camera) = None \/
        exists last,
          LS !! (person, camera) = Some last /\
          (float_of_int DEDUPE_WINDOW_SEC <=? t - last)%float = true) /\
     (b = true -> LS' = <[(person, camera) := t]> LS) /\
     (b = false -> LS' = LS)) /\
  (forall clock1 ts_iso1 t1,
     LS !! (person, camera) = None ->
     now_timestamp fromisoformat clock1 ts_iso1 = Return t1 ->
     PrimFloat.is_finite t1 = true ->
     exists LS1 b1 LS2,
       _should_log fromisoformat clock person camera ts_iso LS
         = Return (true, LS1) /\
       _should_log fromisoformat clock1 person camera ts_iso1 LS1
         = Return (b1, LS2) /\
       (b1 = true <->
          (float_of_int DEDUPE_WINDOW_SEC <=? t1 - t)%float = true) /\
       (t = 0%float -> t1 = (29999 / 1000)%float ->
        b1 = false /\ LS2 !! (person, camera) = Some 0%float) /\
       (t = 0%float -> t1 = (30001 / 1000)%float ->
        b1 = true /\ LS2 !! (person, camera) = Some (30001 / 1000)%float)).
Proof.
  intros Hnow Ht HLS. split.
  - rewrite (should_log_unfold _ _ _ _ _ _ _ Hnow).
    destruct (LS !! (person, camera)) as [last|] eqn:Hlast.
    + pose proof (not_within_window t last Ht (HLS _ eq_refl)) as Hiff.
      destruct (t - last <? float_of_int DEDUPE_WINDOW_SEC)%float eqn:Hd.
      * exists false, LS. split; [reflexivity|].
        repeat split; try discriminate; trivial.
        intros [[=] | (l & [= <-] & Hwin)].
        apply Hiff in Hwin. discriminate.
      * exists true, (<[(person, camera) := t]> LS). split; [reflexivity|].
        repeat split; try discriminate; trivial.
        intros _. right. exists last. split; [reflexivity|].
        now apply Hiff.
    + exists true, (<[(person, camera) := t]> LS). split; [reflexivity|].
      repeat split; try discriminate; trivial. intros _. now left.
  - intros clock1 ts_iso1 t1 Hnone Hnow1 Ht1.
    exists (<[(person, camera) := t]> LS).
    rewrite (should_log_unfold _ _ _ _ _ _ _ Hnow), Hnone.
    rewrite (should_log_unfold _ _ _ _ _ _ _ Hnow1), lookup_insert_eq.
    pose proof (not_within_window t1 t Ht1 Ht) as Hiff.
    destruct (t1 - t <? float_of_int DEDUPE_WINDOW_SEC)%float eqn:Hd.
    + exists false, (<[(person, camera) := t]> LS).
      split; [reflexivity|]. split; [reflexivity|].
      split.
      { split; [discriminate|]. intros Hwin. apply Hiff in Hwin.
        discriminate. }
      split.
      * intros -> _. split; [reflexivity | apply lookup_insert_eq].
      * intros -> ->. vm_compute in Hd. discriminate.
    + exists true, (<[(person, camera) := t1]> (<[(person, camera) := t]> LS)).
      split; [reflexivity|]. split; [reflexivity|].
      split. { split; trivial. intros _. now apply Hiff. }
      split.
      * intros -> ->. vm_compute in Hd. discriminate.
      * intros _ ->. split; [reflexivity | apply lookup_insert_eq].
Qed.

(** At the ISO texts of 0 s and 29.999 s after the epoch. *)
Lemma should_log_debounce_witness :
  now_timestamp Iso.fromisoformat 7 (Some "1970-01-01T00:00:00")
  = Return 0%float /\
  exists LS1 b1 LS2,
    _should_log Iso.fromisoformat 7 "bob" "cam1"
      (Some "1970-01-01T00:00:00") ∅ = Return (true, LS1) /\
    _should_log Iso.fromisoformat 9 "bob" "cam1"
      (Some "1970-01-01T00:00:29.999000") LS1 = Return (b1, LS2) /\
    b1 = false /\ LS2 !! ("bob", "cam1") = Some 0%float.
Proof.
  split; [reflexivity|].
  destruct (should_log_debounce Iso.fromisoformat 7 "bob" "cam1"
              (Some "1970-01-01T00:00:00") 0 ∅ eq_refl eq_refl
              ltac:(intros last; rewrite lookup_empty; discriminate))
    as [_ H2].
  destruct (H2 9%float (Some "1970-01-01T00:00:29.999000")
              (29999 / 1000)%float
              (lookup_empty _) eq_refl eq_refl)
    as (LS1 & b1 & LS2 & E1 & E2 & _ & Hlow & _).
  exists LS1, b1, LS2. destruct (Hlow eq_refl eq_refl). auto.
Defined.

(** C1 fails as stated of the instants themselves.  The timestamps of
    2038-01-19T03:13:53.000003 and of the instant exactly 30 s later differ
    by less than 30 in binary64, and the second call is suppressed; the
    timestamps of 2300-01-01T00:00:00.000004 and of the instant 29.999999 s
    later differ by 30, and the second call is accepted. *)
Lemma exact_window_is_not_kept :
  Iso.microseconds "2038-01-19T03:13:53.000003" = Some 2147483633000003 /\
  Iso.microseconds "2038-01-19T03:14:23.000003"
  = Some (2147483633000003 + DEDUPE_WINDOW_SEC * MICRO) /\
  _should_log Iso.fromisoformat 0 "bob" "cam1"
    (Some "2038-01-19T03:13:53.000003") ∅
  = Return (true, {[ ("bob", "cam1") := Iso.seconds 2147483633000003 ]}) /\
  _should_log Iso.fromisoformat 0 "bob" "cam1"
    (Some "2038-01-19T03:14:23.000003")
    {[ ("bob", "cam1") := Iso.seconds 2147483633000003 ]}
  = Return (false, {[ ("bob", "cam1") := Iso.seconds 2147483633000003 ]}) /\
  Iso.microseconds "2300-01-01T00:00:00.000004" = Some 10413792000000004 /\
  Iso.microseconds "2300-01-01T00:00:30.000003"
  = Some (10413792000000004 + DEDUPE_WINDOW_SEC * MICRO - 1) /\
  _should_log Iso.fromisoformat 0 "bob" "cam1"
    (Some "2300-01-01T00:00:00.000004") ∅
  = Return (true, {[ ("bob", "cam1") := Iso.seconds 10413792000000004 ]}) /\
  _should_log Iso.fromisoformat 0 "bob" "cam1"
    (Some "2300-01-01T00:00:30.000003")
    {[ ("bob", "cam1") := Iso.seconds 10413792000000004 ]}
  = Return (true, {[ ("bob", "cam1") := Iso.seconds 10413792030000003 ]}).
Proof. repeat split; vm_compute; reflexivity. Qed.

(** ** What the handlers do to the state *)

Section ServiceFacts.

Variable fromisoformat : string -> option float.
Variable image : Type.
Variable imdecode : list Byte.byte -> option image.
Variable face_app_get : image -> list face.

Abbreviation serve' := (serve fromisoformat image imdecode face_app_get).
Abbreviation serve_all' :=
  (serve_all fromisoformat image imdecode face_app_get).

Lemma set_LAST_SEEN_same w : set_LAST_SEEN (LAST_SEEN w) w = w.
Proof. now destruct w. Qed.

(** the cache changes only through [_should_log] *)
Lemma serve_LAST_SEEN utcnow_iso clock r w :
  LAST_SEEN (fst (serve' utcnow_iso clock r w)) = LAST_SEEN w \/
  exists person camera ts_iso b,
    _should_log fromisoformat clock person camera ts_iso (LAST_SEEN w)
    = Return (b, LAST_SEEN (fst (serve' utcnow_iso clock r w))).
Proof.
  destruct r; simpl; try (left; reflexivity).
  - unfold enroll. repeat case_match; simpl; auto.
  - unfold match_. repeat case_match; simpl; subst; auto;
      right; do 4 eexists; eassumption.
  - unfold add_event. repeat case_match; simpl; subst; auto;
      right; do 4 eexists; eassumption.
Qed.

Lemma serve_keeps utcnow_iso clock r w key last :
  (forall s t, fromisoformat s = Some t -> PrimFloat.is_finite t = true) ->
  PrimFloat.is_finite clock = true ->
  LAST_SEEN w !! key = Some last ->
  PrimFloat.is_finite last = true ->
  exists last',
    LAST_SEEN (fst (serve' utcnow_iso clock r w)) !! key = Some last' /\
    PrimFloat.is_finite last' = true /\
    (last' = last \/ (last <? last')%float = true).
Proof.
  intros Hlib Hclock Hkey Hfin.
  destruct (serve_LAST_SEEN utcnow_iso clock r w)
    as [-> | (person & camera & ts_iso & b & Hlog)].
  - eauto.
  - destruct (should_log_keeps _ _ _ _ _ _ _ _ _ _ Hlib Hclock Hlog Hkey Hfin)
      as (last' & H1 & H2 & [->|[H3 _]]); eauto.
Qed.

Lemma serve_all_keeps rs w key last :
  (forall s t, fromisoformat s = Some t -> PrimFloat.is_finite t = true) ->
  Forall (fun x => PrimFloat.is_finite x.1.2 = true) rs ->
  LAST_SEEN w !! key = Some last ->
  PrimFloat.is_finite last = true ->
  exists last',
    LAST_SEEN (serve_all' rs w) !! key = Some last' /\
    (last <=? last')%float = true.
Proof.
  intros Hlib Hrs. revert w last.
  induction Hrs as [|[[utcnow_iso clock] r] rs Hclock _ IH];
    intros w last Hkey Hfin; simpl.
  - exists last. split; [assumption | now apply leb_refl].
  - destruct (serve_keeps utcnow_iso clock r w key last Hlib Hclock Hkey Hfin)
      as (mid & Hmid & Hfmid & Hstep).
    destruct (IH _ _ Hmid Hfmid) as (last' & Hlast' & Hle).
    exists last'. split; [assumption|].
    destruct Hstep as [->|Hlt]; [assumption|].
    eapply ltb_leb_trans; eassumption.
Qed.

End ServiceFacts.

(** C9. Every request keeps every (person, camera) key of the debounce
    cache, and leaves the key's last-accepted time as it was or replaces it
    by a strictly later one; over any run of requests the time of a key
    never moves backwards.  Times are binary64 timestamps, and finite, as
    [datetime.timestamp()] gives them. *)
Theorem last_seen_only_moves_forward
    (fromisoformat : string -> option float) (image : Type)
    (imdecode : list Byte.byte -> option image)
    (face_app_get : image -> list face)
    (w : world) (key : string * string) (last : float) :
  (forall s t, fromisoformat s = Some t -> PrimFloat.is_finite t = true) ->
  LAST_SEEN w !! key = Some last ->
  PrimFloat.is_finite last = true ->
  (forall utcnow_iso clock r,
     PrimFloat.is_finite clock = true ->
     exists last',
       LAST_SEEN (fst (serve fromisoformat image imdecode face_app_get
                         utcnow_iso clock r w)) !! key = Some last' /\
       (last' = last \/ (last <? last')%float = true)) /\
  (forall person camera clock ts_iso LS',
     PrimFloat.is_finite clock = true ->
     _should_log fromisoformat clock person camera ts_iso (LAST_SEEN w)
       = Return (true, LS') ->
     (person, camera) = key ->
     exists t, LS' !! key = Some t /\ (last <? t)%float = true) /\
  (forall rs,
     Forall (fun x => PrimFloat.is_finite x.1.2 = true) rs ->
     exists last',
       LAST_SEEN (serve_all fromisoformat image imdecode face_app_get rs w)
         !! key = Some last' /\ (last <=? last')%float = true).
Proof.
  intros Hlib Hkey Hfin. split; [|split].
  - intros utcnow_iso clock r Hclock.
    destruct (serve_keeps fromisoformat image imdecode face_app_get
                utcnow_iso clock r w key last Hlib Hclock Hkey Hfin)
      as (last' & H & _ & Hstep).
    exists last'. split; assumption.
  - intros person camera clock ts_iso LS' Hclock Hlog <-.
    destruct (should_log_inv _ _ _ _ _ _ _ _ Hlog)
      as (t & Hnow & [([=] & _) | (_ & -> & Hwin)]).
    exists t. rewrite lookup_insert_eq. split; [reflexivity|].
    apply sub_later; auto.
    eapply now_timestamp_finite; eassumption.
  - intros rs Hrs. now apply serve_all_keeps.
Qed.

(** A cached key at 100 s survives an event posted with an earlier
    timestamp. *)
Lemma last_seen_only_moves_forward_witness :
  exists last',
    LAST_SEEN (fst (serve Iso.fromisoformat Toy.image Toy.imdecode
                      Toy.face_app_get "1970-01-01T00:05:00" 300
                      (POST_events {| ev_person := "bob"; ev_score := 0.5;
                                      ev_camera := "cam1";
                                      ev_timestamp := Some "1970-01-01T00:00:10" |})
                      (set_LAST_SEEN {[ ("bob", "cam1") := 100%float ]}
                         Toy.fresh)))
      !! ("bob", "cam1") = Some last' /\
    (last' = 100%float \/ (100 <? last')%float = true).
Proof.
  destruct (last_seen_only_moves_forward Iso.fromisoformat Toy.image
              Toy.imdecode Toy.face_app_get
              (set_LAST_SEEN {[ ("bob", "cam1") := 100%float ]} Toy.fresh)
              ("bob", "cam1") 100 Iso_fromisoformat_finite
              (lookup_singleton_eq _ _) eq_refl) as [H _].
  apply H. reflexivity.
Defined.

(** ** The matcher *)

Section MaxFacts.

Context {A K : Type} (gt : K -> K -> bool) (key : A -> K).

(** a first item that no later item beats is the result *)
Lemma max_from_head (best : A) (xs : list A) :
  Forall (fun y => gt (key y) (key best) = false) xs ->
  max_from gt key best xs = best.
Proof.
  induction 1 as [|x xs Hx _ IH]; simpl; [reflexivity|].
  now rewrite Hx.
Qed.

Hypothesis gt_irrefl : forall k, gt k k = false.
Hypothesis gt_trans :
  forall a b c, gt a b = true -> gt b c = true -> gt a c = true.

(** [max] returns an item of the sequence; no item before it has its key,
    and no item after it has a greater key: of the items with the winning
    key, the first is returned *)
Lemma max_from_first (xs : list A) :
  forall best,
  exists pre post,
    best :: xs = pre ++ max_from gt key best xs :: post /\
    Forall (fun y => key y <> key (max_from gt key best xs)) pre /\
    Forall (fun y => gt (key y) (key (max_from gt key best xs)) = false) post /\
    (pre = [] \/ gt (key (max_from gt key best xs)) (key best) = true).
Proof.
  induction xs as [|x xs IH]; intros best; simpl.
  - exists [], []. repeat split; auto.
  - destruct (gt (key x) (key best)) eqn:Hgt.
    + destruct (IH x) as (pre & post & Heq & Hpre & Hpost & Hfirst).
      assert (Hbest : gt (key (max_from gt key x xs)) (key best) = true).
      { destruct Hfirst as [-> | Hr].
        - simpl in Heq. injection Heq as <- _. exact Hgt.
        - exact (gt_trans _ _ _ Hr Hgt). }
      exists (best :: pre), post. repeat split; auto.
      * simpl. congruence.
      * constructor; [|assumption].
        intros Hk. rewrite Hk, gt_irrefl in Hbest. discriminate.
    + destruct (IH best) as (pre & post & Heq & Hpre & Hpost & Hfirst).
      destruct pre as [|p pre]; simpl in Heq.
      * injection Heq as Hb Hxs.
        exists [], (x :: post). repeat split; auto.
        -- simpl. congruence.
        -- constructor; [congruence | assumption].
      * injection Heq as <- Hxs.
        destruct Hfirst as [[=] | Hr].
        exists (best :: x :: pre), post. repeat split; auto.
        -- simpl. congruence.
        -- inversion Hpre; subst.
           constructor; [assumption|]. constructor; [|assumption].
           intros Hk. rewrite Hk, Hr in Hgt. discriminate.
Qed.

End MaxFacts.

(** [>] on floats is irreflexive and transitive, nans included *)

Lemma SFltb_irrefl f : SFltb f f = false.
Proof.
  unfold SFltb. destruct f as [s|s| |s m e]; simpl.
  - reflexivity.
  - now destruct s.
  - reflexivity.
  - destruct s; rewrite Z.compare_refl, Pos.compare_cont_refl; reflexivity.
Qed.

Lemma SFltb_trans a b c :
  SFltb a b = true -> SFltb b c = true -> SFltb a c = true.
Proof.
  unfold SFltb.
  destruct a as [sa|sa| |sa ma ea], b as [sb|sb| |sb mb eb],
           c as [sc|sc| |sc mc ec]; simpl;
    repeat match goal with s : bool |- _ => destruct s end;
    simpl; try discriminate; try reflexivity;
    rewrite ?Pos.compare_cont_spec; simpl;
    destruct (Z.compare_spec ea eb), (Z.compare_spec eb ec),
             (Z.compare_spec ea ec);
    try discriminate; try reflexivity; try lia; subst;
    destruct (Pos.compare_spec ma mb), (Pos.compare_spec mb mc),
             (Pos.compare_spec ma mc);
    simpl; try discriminate; try reflexivity; try lia.
Qed.

Lemma float_gt_irrefl x : float_gt x x = false.
Proof. unfold float_gt. rewrite ltb_spec. apply SFltb_irrefl. Qed.

Lemma float_gt_trans a b c :
  float_gt a b = true -> float_gt b c = true -> float_gt a c = true.
Proof.
  unfold float_gt. rewrite !ltb_spec. intros Hab Hbc.
  exact (SFltb_trans _ _ _ Hbc Hab).
Qed.

Section MatchFacts.

Variable fromisoformat : string -> option float.
Variable image : Type.
Variable imdecode : list Byte.byte -> option image.
Variable face_app_get : image -> list face.

Abbreviation embed' := (embed_image_bytes image imdecode face_app_get).
Abbreviation matchf := (match_ fromisoformat image imdecode face_app_get).

(** extraction fails in two ways only *)
Lemma embed_raises b e :
  embed' b = Raise e ->
  e = ValueError "Cannot decode image" \/ e = ValueError "No face detected".
Proof.
  unfold embed_image_bytes.
  destruct (imdecode b) as [img|]; [|intros [= <-]; now left].
  destruct (face_app_get img) as [|f fs]; [intros [= <-]; now right|].
  simpl. discriminate.
Qed.

Lemma match_empty utcnow_iso clock file thr camera w :
  read_gallery (gallery_json w) = Return [] ->
  matchf utcnow_iso clock file thr camera w
  = (w, Return (response_400 "gallery empty, enroll first")).
Proof. intros H. unfold match_. now rewrite H. Qed.

Lemma match_extraction_error utcnow_iso clock file thr camera w entry rest e :
  read_gallery (gallery_json w) = Return (entry :: rest) ->
  embed' file = Raise e ->
  matchf utcnow_iso clock file thr camera w
  = (w, Return (response_400 (str_exn e))).
Proof. intros Hg He. unfold match_. now rewrite Hg, He. Qed.

(** everything behind a [Matched] reply *)
Lemma match_Matched utcnow_iso clock file thr camera w w' s n b m t l :
  matchf utcnow_iso clock file thr camera w
  = (w', Return (Matched s n b m t l)) ->
  exists gal q scores best_score,
    read_gallery (gallery_json w) = Return gal /\ gal <> [] /\
    embed' file = Return q /\
    score_all gal q = Return scores /\
    py_max float_gt snd scores = Return (n, best_score) /\
    s = round_scores scores /\ b = PyFloat.py_round3 best_score /\
    m = float_ge best_score thr /\ t = thr /\
    ((m = false /\ l = false /\ w' = w) \/
     (m = true /\
      exists LS',
        _should_log fromisoformat clock n camera (Some utcnow_iso)
          (LAST_SEEN w) = Return (l, LS') /\
        w' = if l
             then append_event
                    {| person := n; score := PyFloat.py_round3 best_score;
                       camera := camera; timestamp := utcnow_iso |} LS' w
             else w)).
Proof.
  unfold match_. intros H.
  destruct (read_gallery (gallery_json w)) as [gal|] eqn:Hgal; [|discriminate].
  destruct gal as [|entry rest]; [discriminate|].
  destruct (embed' file) as [q|] eqn:Hq; [|discriminate].
  destruct (score_all (entry :: rest) q) as [scores|] eqn:Hs; [|discriminate].
  destruct (py_max float_gt snd scores) as [[bn bs]|] eqn:Hmax; [|discriminate].
  exists (entry :: rest), q, scores, bs.
  destruct (float_ge bs thr) eqn:Hge.
  - destruct (_should_log fromisoformat clock bn camera (Some utcnow_iso)
                (LAST_SEEN w)) as [[[|] LS']|] eqn:Hlog;
      [| |discriminate]; injection H as <- <- <- <- <- <- <-;
      (repeat split; trivial; try discriminate); right; split; trivial;
      exists LS'; split; trivial.
    destruct (should_log_inv _ _ _ _ _ _ _ _ Hlog)
      as (? & _ & [(_ & -> & _) | ([=] & _)]).
    apply set_LAST_SEEN_same.
  - injection H as <- <- <- <- <- <- <-.
    repeat split; trivial; try discriminate. now left.
Qed.

End MatchFacts.

(** C6. A match request against an empty gallery (no gallery file yet, or
    a file holding no entry) is answered with status 400 and the error
    "gallery empty, enroll first", and nothing changes; no score map is
    returned.  That error is given for an empty gallery only: a failed
    extraction never produces it, and a request that receives it was served
    with an empty gallery. *)
Theorem match_empty_gallery_error
    (fromisoformat : string -> option float) (image : Type)
    (imdecode : list Byte.byte -> option image)
    (face_app_get : image -> list face)
    (utcnow_iso : string) (clock : float) (file : list Byte.byte) (thr : float)
    (camera : string) (w : world) :
  gallery_json w = NoFile \/ gallery_json w = Whole [] ->
  match_ fromisoformat image imdecode face_app_get utcnow_iso clock file thr
    camera w
  = (w, Return (Error_response 400 "gallery empty, enroll first")) /\
  (forall s n b m t l,
     snd (match_ fromisoformat image imdecode face_app_get utcnow_iso clock
            file thr camera w) <> Return (Matched s n b m t l)) /\
  (forall b e,
     embed_image_bytes image imdecode face_app_get b = Raise e ->
     str_exn e <> "gallery empty, enroll first") /\
  (forall utcnow_iso0 clock0 file0 thr0 camera0 w0,
     snd (match_ fromisoformat image imdecode face_app_get utcnow_iso0 clock0
            file0 thr0 camera0 w0)
     = Return (Error_response 400 "gallery empty, enroll first") ->
     read_gallery (gallery_json w0) = Return []).
Proof.
  intros Hempty.
  assert (Hread : read_gallery (gallery_json w) = Return [])
    by (destruct Hempty as [-> | ->]; reflexivity).
  assert (Hdistinct : forall b e,
             embed_image_bytes image imdecode face_app_get b = Raise e ->
             str_exn e <> "gallery empty, enroll first").
  { intros b e He. destruct (embed_raises _ _ _ _ _ He) as [-> | ->];
      simpl; discriminate. }
  rewrite (match_empty _ _ _ _ _ _ _ _ _ _ Hread).
  split; [reflexivity|]. split; [simpl; discriminate|].
  split; [exact Hdistinct|].
  intros utcnow_iso0 clock0 file0 thr0 camera0 w0. unfold match_.
  destruct (read_gallery (gallery_json w0)) as [[|entry rest]|] eqn:Hgal;
    simpl; trivial; try discriminate.
  destruct (embed_image_bytes image imdecode face_app_get file0) as [q|e] eqn:Hq.
  - repeat case_match; simpl; discriminate.
  - simpl. intros [= Hmsg]. now apply Hdistinct in Hq.
Qed.

(** A freshly started service with no gallery file. *)
Lemma match_empty_gallery_error_witness :
  match_ Iso.fromisoformat Toy.image Toy.imdecode Toy.face_app_get
    "2024-03-01T12:00:00" 0 Toy.portrait_a 0.5 "cam1" Toy.fresh
  = (Toy.fresh, Return (Error_response 400 "gallery empty, enroll first")).
Proof.
  apply (match_empty_gallery_error Iso.fromisoformat Toy.image Toy.imdecode
           Toy.face_app_get "2024-03-01T12:00:00" 0 Toy.portrait_a 0.5 "cam1"
           Toy.fresh).
  left. reflexivity.
Defined.

(** C10. With an empty gallery the match request is answered with the
    empty-gallery error before the upload is looked at: the reply is the
    same for every upload, also for bytes that do not decode or show no
    face, whose own error is reported only when the gallery has entries. *)
Theorem empty_gallery_checked_before_extraction
    (fromisoformat : string -> option float) (image : Type)
    (imdecode : list Byte.byte -> option image)
    (face_app_get : image -> list face)
    (utcnow_iso : string) (clock : float) (file : list Byte.byte) (thr : float)
    (camera : string) (w : world) (e : exn) :
  read_gallery (gallery_json w) = Return [] ->
  embed_image_bytes image imdecode face_app_get file = Raise e ->
  match_ fromisoformat image imdecode face_app_get utcnow_iso clock file thr
    camera w
  = (w, Return (Error_response 400 "gallery empty, enroll first")) /\
  Error_response 400 "gallery empty, enroll first"
  <> Error_response 400 (str_exn e) /\
  (forall file', 
     match_ fromisoformat image imdecode face_app_get utcnow_iso clock file'
       thr camera w
     = match_ fromisoformat image imdecode face_app_get utcnow_iso clock file
         thr camera w) /\
  (forall w2 entry rest,
     read_gallery (gallery_json w2) = Return (entry :: rest) ->
     match_ fromisoformat image imdecode face_app_get utcnow_iso clock file
       thr camera w2
     = (w2, Return (Error_response 400 (str_exn e)))).
Proof.
  intros Hread He.
  split; [now apply match_empty|]. split.
  - destruct (embed_raises _ _ _ _ _ He) as [-> | ->]; simpl; discriminate.
  - split.
    + intros file'. now rewrite !(match_empty _ _ _ _ _ _ _ _ _ _ Hread).
    + intros w2 entry rest Hg. now apply match_extraction_error with entry rest.
Qed.

(** Undecodable bytes sent to a service without a gallery. *)
Lemma empty_gallery_checked_before_extraction_witness :
  embed_image_bytes Toy.image Toy.imdecode Toy.face_app_get Toy.undecodable
  = Raise (ValueError "Cannot decode image") /\
  match_ Iso.fromisoformat Toy.image Toy.imdecode Toy.face_app_get
    "2024-03-01T12:00:00" 0 Toy.undecodable 0.5 "cam1" Toy.fresh
  = (Toy.fresh, Return (Error_response 400 "gallery empty, enroll first")).
Proof.
  split; [reflexivity|].
  apply (empty_gallery_checked_before_extraction Iso.fromisoformat Toy.image
           Toy.imdecode Toy.face_app_get "2024-03-01T12:00:00" 0
           Toy.undecodable 0.5 "cam1" Toy.fresh
           (ValueError "Cannot decode image"));
    reflexivity.
Defined.

(** ** Recording events *)

Section EventFacts.

Variable fromisoformat : string -> option float.

Lemma add_event_logged utcnow_iso clock ev w LS' :
  _should_log fromisoformat clock (ev_person ev) (ev_camera ev)
    (Some (timestamp_or ev utcnow_iso)) (LAST_SEEN w) = Return (true, LS') ->
  add_event fromisoformat utcnow_iso clock ev w
  = (append_event (row_of ev utcnow_iso) LS' w,
     Return (Event_status "logged" (length (EVENTS w ++ [row_of ev utcnow_iso])))).
Proof. intros H. unfold add_event. now rewrite H. Qed.

Lemma add_event_skipped utcnow_iso clock ev w LS' :
  _should_log fromisoformat clock (ev_person ev) (ev_camera ev)
    (Some (timestamp_or ev utcnow_iso)) (LAST_SEEN w) = Return (false, LS') ->
  add_event fromisoformat utcnow_iso clock ev w
  = (w, Return (Event_status "skipped_duplicate" (length (EVENTS w)))).
Proof.
  intros H. unfold add_event. rewrite H.
  destruct (should_log_inv _ _ _ _ _ _ _ _ H)
    as (? & _ & [(_ & -> & _) | ([=] & _)]).
  simpl. now rewrite set_LAST_SEEN_same.
Qed.

Lemma add_event_raises utcnow_iso clock ev w e :
  _should_log fromisoformat clock (ev_person ev) (ev_camera ev)
    (Some (timestamp_or ev utcnow_iso)) (LAST_SEEN w) = Raise e ->
  add_event fromisoformat utcnow_iso clock ev w = (w, Raise e).
Proof. intros H. unfold add_event. now rewrite H. Qed.

End EventFacts.

Section GrowthFacts.

Variable fromisoformat : string -> option float.
Variable image : Type.
Variable imdecode : list Byte.byte -> option image.
Variable face_app_get : image -> list face.

(** the event list grows only when an event is posted, or when a match
    request is answered [match = true] and [logged = true] *)
Lemma events_grow_only_by utcnow_iso clock r w :
  (length (EVENTS w)
   < length (EVENTS (fst (serve fromisoformat image imdecode face_app_get
                            utcnow_iso clock r w))))%nat ->
  (exists ev, r = POST_events ev) \/
  (exists file thr camera s n b,
     r = POST_match file thr camera /\
     snd (serve fromisoformat image imdecode face_app_get utcnow_iso clock r w)
     = Return (Matched s n b true thr true)).
Proof.
  destruct r as [|name files|upload thr cam| |ev| |]; simpl; try lia.
  - unfold enroll. repeat case_match; simpl; lia.
  - intros Hlen. right. exists upload, thr, cam.
    unfold match_ in *.
    repeat case_match; simpl in *; try lia.
    do 3 eexists. split; [reflexivity|].
    repeat match goal with H : float_ge _ _ = true |- _ => rewrite H end.
    reflexivity.
  - intros _. left. eauto.
Qed.

End GrowthFacts.

(** C7. A match request whose reply says [match = false] (the best score
    is not at or above the threshold) changes nothing: no event is
    appended, the events file is not touched, and the reply says
    [logged = false].  An event for such a result is recorded only by
    posting it: [add_event] appends it whenever the debounce check accepts,
    whatever its score, and no request makes the event list longer other
    than a posted event and a match request answered [match = true]. *)
Theorem unmatched_query_logs_nothing
    (fromisoformat : string -> option float) (image : Type)
    (imdecode : list Byte.byte -> option image)
    (face_app_get : image -> list face)
    (utcnow_iso : string) (clock : float) (file : list Byte.byte) (thr : float)
    (camera : string) (w w' : world)
    (s : dict float) (n : string) (b t : float) (l : bool) :
  match_ fromisoformat image imdecode face_app_get utcnow_iso clock file thr
    camera w
  = (w', Return (Matched s n b false t l)) ->
  (w' = w /\ l = false /\ EVENTS w' = EVENTS w /\
   events_json w' = events_json w) /\
  (exists gal q scores best_score,
     read_gallery (gallery_json w) = Return gal /\
     embed_image_bytes image imdecode face_app_get file = Return q /\
     score_all gal q = Return scores /\
     py_max float_gt snd scores = Return (n, best_score) /\
     float_ge best_score thr = false) /\
  (forall utcnow_iso1 clock1 ev LS',
     _should_log fromisoformat clock1 (ev_person ev) (ev_camera ev)
       (Some (timestamp_or ev utcnow_iso1)) (LAST_SEEN w') = Return (true, LS') ->
     EVENTS (fst (add_event fromisoformat utcnow_iso1 clock1 ev w'))
     = EVENTS w ++ [ {| person := ev_person ev;
                        score := PyFloat.py_round3 (ev_score ev);
                        camera := ev_camera ev;
                        timestamp := timestamp_or ev utcnow_iso1 |} ]) /\
  (forall utcnow_iso1 clock1 r w1,
     (length (EVENTS w1)
      < length (EVENTS (fst (serve fromisoformat image imdecode face_app_get
                               utcnow_iso1 clock1 r w1))))%nat ->
     (exists ev, r = POST_events ev) \/
     (exists file1 thr1 camera1 s1 n1 b1,
        r = POST_match file1 thr1 camera1 /\
        snd (serve fromisoformat image imdecode face_app_get utcnow_iso1
               clock1 r w1)
        = Return (Matched s1 n1 b1 true thr1 true))).
Proof.
  intros H.
  destruct (match_Matched _ _ _ _ _ _ _ _ _ _ _ _ _ _ _ _ _ H)
    as (gal & q & scores & bs & Hgal & _ & Hq & Hs & Hmax & _ & _ & Hm & _
        & [(_ & -> & ->) | ([=] & _)]).
  split; [repeat split|]. split; [|split].
  - exists gal, q, scores, bs. repeat split; trivial. now symmetry.
  - intros utcnow_iso1 clock1 ev LS' Hlog.
    now rewrite (add_event_logged _ _ _ _ _ _ Hlog).
  - intros utcnow_iso1 clock1 r w1. apply events_grow_only_by.
Qed.

(** Alice enrolled, a query below the threshold 2. *)
Lemma unmatched_query_logs_nothing_witness :
  exists s n b t l,
    match_ Iso.fromisoformat Toy.image Toy.imdecode Toy.face_app_get
      "2024-03-01T12:00:00" 0 Toy.portrait_b 2 "cam1" Toy.alice_enrolled
    = (Toy.alice_enrolled, Return (Matched s n b false t l)) /\ l = false.
Proof.
  assert (E : match_ Iso.fromisoformat Toy.image Toy.imdecode Toy.face_app_get
                "2024-03-01T12:00:00" 0 Toy.portrait_b 2 "cam1"
                Toy.alice_enrolled = Toy.low_reply)
    by (vm_compute; reflexivity).
  unfold Toy.low_reply in E.
  do 5 eexists. split; [exact E|].
  exact (proj1 (proj2 (proj1
    (unmatched_query_logs_nothing _ _ _ _ _ _ _ _ _ _ _ _ _ _ _ _ E)))).
Defined.

(** C5. The best name of a match reply is a function of the gallery file
    and the query alone: two runs on the same gallery and the same upload
    return the same best name (and the same scores), whatever the events,
    the debounce cache, the clock, the threshold and the camera of each
    run.  The name is the one [max] selects from the scores in gallery
    order: no entry before it has its score and no entry after it has a
    greater one, so of several names with the winning score the first in
    the gallery is returned; a first entry that no later entry beats is
    the best name. *)
Theorem best_name_deterministic
    (fromisoformat : string -> option float) (image : Type)
    (imdecode : list Byte.byte -> option image)
    (face_app_get : image -> list face)
    (file : list Byte.byte)
    (utcnow_iso1 utcnow_iso2 : string) (clock1 clock2 : float)
    (thr1 thr2 : float) (camera1 camera2 : string)
    (w1 w1' w2 w2' : world)
    (s1 s2 : dict float) (n1 n2 : string) (b1 b2 t1 t2 : float)
    (m1 m2 l1 l2 : bool) :
  gallery_json w1 = gallery_json w2 ->
  match_ fromisoformat image imdecode face_app_get utcnow_iso1 clock1 file
    thr1 camera1 w1 = (w1', Return (Matched s1 n1 b1 m1 t1 l1)) ->
  match_ fromisoformat image imdecode face_app_get utcnow_iso2 clock2 file
    thr2 camera2 w2 = (w2', Return (Matched s2 n2 b2 m2 t2 l2)) ->
  (n1 = n2 /\ b1 = b2 /\ s1 = s2) /\
  (exists gal q scores best_score pre post,
     read_gallery (gallery_json w1) = Return gal /\
     embed_image_bytes image imdecode face_app_get file = Return q /\
     score_all gal q = Return scores /\
     map fst scores = map fst gal /\
     scores = pre ++ (n1, best_score) :: post /\
     Forall (fun y => snd y <> best_score) pre /\
     Forall (fun y => float_gt (snd y) best_score = false) post /\
     (forall name0 sc0 rest,
        scores = (name0, sc0) :: rest ->
        Forall (fun y => float_gt (snd y) sc0 = false) rest ->
        n1 = name0)).
Proof.
  intros Hgal H1 H2.
  destruct (match_Matched _ _ _ _ _ _ _ _ _ _ _ _ _ _ _ _ _ H1)
    as (gal & q & scores & bs & Hg1 & _ & Hq1 & Hs1 & Hmax1 & -> & -> & _).
  destruct (match_Matched _ _ _ _ _ _ _ _ _ _ _ _ _ _ _ _ _ H2)
    as (gal' & q' & scores' & bs' & Hg2 & _ & Hq2 & Hs2 & Hmax2 & -> & -> & _).
  rewrite <- Hgal, Hg1 in Hg2. injection Hg2 as <-.
  rewrite Hq1 in Hq2. injection Hq2 as <-.
  rewrite Hs1 in Hs2. injection Hs2 as <-.
  rewrite Hmax1 in Hmax2. injection Hmax2 as <- <-.
  split; [repeat split|].
  destruct scores as [|first rest]; [discriminate|].
  simpl in Hmax1. injection Hmax1 as Hmax.
  destruct (max_from_first float_gt snd float_gt_irrefl float_gt_trans
              rest first) as (pre & post & Hsplit & Hpre & Hpost & _).
  rewrite Hmax in Hsplit, Hpre, Hpost. simpl in Hpre, Hpost.
  exists gal, q, (first :: rest), bs, pre, post.
  repeat split; trivial.
  - clear -Hs1. revert Hs1. generalize (first :: rest). clear.
    induction gal as [|[name vec] gal IH]; intros scores; simpl.
    + now intros [= <-].
    + destruct (cosine (Np.astype32 vec) q) as [sc|]; simpl; [|discriminate].
      destruct (score_all gal q) as [ss|]; simpl; [|discriminate].
      intros [= <-]. simpl. f_equal. now apply IH.
  - intros name0 sc0 rest0 [= -> ->] Hrest.
    rewrite (max_from_head float_gt snd (name0, sc0) rest0 Hrest) in Hmax.
    now injection Hmax.
Qed.

(** Alice and Bob enrolled from the same portrait tie at score 1; two
    runs, at different thresholds, cameras and clocks, agree on the name. *)
Lemma best_name_deterministic_witness :
  exists w1' w2' s1 s2 n1 n2 b1 b2 l1 l2,
    match_ Iso.fromisoformat Toy.image Toy.imdecode Toy.face_app_get
      "2024-03-01T12:00:00" 0 Toy.portrait_a 0.5 "cam1" Toy.two_enrolled
    = (w1', Return (Matched s1 n1 b1 true 0.5 l1)) /\
    match_ Iso.fromisoformat Toy.image Toy.imdecode Toy.face_app_get
      "2024-03-01T12:00:07" 5 Toy.portrait_a 2 "cam2" w1'
    = (w2', Return (Matched s2 n2 b2 false 2 l2)) /\
    n1 = n2.
Proof.
  assert (E1 : match_ Iso.fromisoformat Toy.image Toy.imdecode Toy.face_app_get
                 "2024-03-01T12:00:00" 0 Toy.portrait_a 0.5 "cam1"
                 Toy.two_enrolled = Toy.tie_reply1)
    by (vm_compute; reflexivity).
  assert (E2 : match_ Iso.fromisoformat Toy.image Toy.imdecode Toy.face_app_get
                 "2024-03-01T12:00:07" 5 Toy.portrait_a 2 "cam2"
                 (fst Toy.tie_reply1) = Toy.tie_reply2)
    by (vm_compute; reflexivity).
  unfold Toy.tie_reply2 in E2. unfold Toy.tie_reply1 in E1, E2.
  simpl fst in E2.
  do 10 eexists. split; [exact E1|]. split; [exact E2|].
  refine (proj1 (proj1
    (best_name_deterministic _ _ _ _ _ _ _ _ _ _ _ _ _ _ _ _ _ _ _ _ _ _ _ _
       _ _ _ _ _ _ E1 E2))).
  vm_compute; reflexivity.
Defined.

(** ** Scores are not validated *)

Lemma SFcompare_refl_finite s m e :
  SFcompare (S754_finite s m e) (S754_finite s m e) = Some Eq.
Proof.
  simpl. destruct s; rewrite Z.compare_refl, Pos.compare_cont_refl; reflexivity.
Qed.

(** a nan is its own [round(x, 3)] *)
Lemma py_round3_nan (x : float) :
  PrimFloat.is_nan x = true -> PyFloat.py_round3 x = x.
Proof.
  unfold PrimFloat.is_nan. rewrite FloatAxioms.eqb_spec. unfold PyFloat.py_round3.
  destruct (Prim2SF x) as [sz|si| |s m e] eqn:E; trivial.
  unfold SFeqb. rewrite SFcompare_refl_finite. discriminate.
Qed.

Section ScoreFacts.

Variable fromisoformat : string -> option float.

(** the debounce check of [add_event] does not look at the score *)
Lemma add_event_with_score utcnow_iso clock ev sc w :
  add_event fromisoformat utcnow_iso clock (with_score ev sc) w
  = match _should_log fromisoformat clock (ev_person ev) (ev_camera ev)
            (Some (timestamp_or ev utcnow_iso)) (LAST_SEEN w) with
    | Raise e => (w, Raise e)
    | Return (true, LS') =>
        (append_event (row_of (with_score ev sc) utcnow_iso) LS' w,
         Return (Event_status "logged" (length (EVENTS w ++ [row_of ev utcnow_iso]))))
    | Return (false, LS') =>
        (w, Return (Event_status "skipped_duplicate" (length (EVENTS w))))
    end.
Proof.
  destruct (_should_log fromisoformat clock (ev_person ev) (ev_camera ev)
              (Some (timestamp_or ev utcnow_iso)) (LAST_SEEN w))
    as [[[|] LS']|e] eqn:H.
  - rewrite (add_event_logged _ _ _ (with_score ev sc) _ LS' H).
    now rewrite !length_app.
  - now rewrite (add_event_skipped _ _ _ (with_score ev sc) _ LS' H).
  - now rewrite (add_event_raises _ _ _ (with_score ev sc) _ e H).
Qed.

End ScoreFacts.

(** C3, as the code has it.  A posted event is accepted or skipped by the
    debounce check on (person, camera, timestamp) alone: the reply does not
    depend on the score.  An accepted event is appended, and written to the
    events file, with [round(score, 3)] as its score; [round] maps a nan to
    itself, so an accepted event with a nan score is stored with a nan
    score. *)
Theorem add_event_does_not_check_score
    (fromisoformat : string -> option float) (utcnow_iso : string) (clock : float)
    (ev : Event) (w : world) :
  (forall sc,
     snd (add_event fromisoformat utcnow_iso clock (with_score ev sc) w)
     = snd (add_event fromisoformat utcnow_iso clock ev w)) /\
  (forall w' n,
     add_event fromisoformat utcnow_iso clock ev w
     = (w', Return (Event_status "logged" n)) ->
     EVENTS w' = EVENTS w ++ [row_of ev utcnow_iso] /\
     events_json w' = Whole (EVENTS w') /\
     score (row_of ev utcnow_iso) = PyFloat.py_round3 (ev_score ev)) /\
  (PrimFloat.is_nan (ev_score ev) = true ->
   PrimFloat.is_nan (score (row_of ev utcnow_iso)) = true).
Proof.
  split; [|split].
  - intros sc.
    rewrite (add_event_with_score fromisoformat utcnow_iso clock ev sc w).
    replace ev with (with_score ev (ev_score ev)) at 4 by now destruct ev.
    rewrite (add_event_with_score fromisoformat utcnow_iso clock ev (ev_score ev) w).
    destruct (_should_log fromisoformat clock (ev_person ev) (ev_camera ev)
                (Some (timestamp_or ev utcnow_iso)) (LAST_SEEN w))
      as [[[|] LS']|e]; reflexivity.
  - intros w' n H.
    destruct (_should_log fromisoformat clock (ev_person ev) (ev_camera ev)
                (Some (timestamp_or ev utcnow_iso)) (LAST_SEEN w))
      as [[[|] LS']|e] eqn:Hlog.
    + rewrite (add_event_logged _ _ _ _ _ _ Hlog) in H.
      injection H as <- _. repeat split.
    + rewrite (add_event_skipped _ _ _ _ _ _ Hlog) in H. discriminate.
    + rewrite (add_event_raises _ _ _ _ _ _ Hlog) in H. discriminate.
  - intros Hnan. simpl. now rewrite (py_round3_nan _ Hnan).
Qed.

(** C3 fails as stated: an event posted with a nan score to a freshly
    started service is answered "logged", and the event list and the events
    file then hold an event whose score is nan. *)
Lemma nan_score_is_logged :
  PrimFloat.is_nan (ev_score Toy.seen_nan) = true /\
  snd (add_event Iso.fromisoformat "2024-03-01T12:00:05" 0 Toy.seen_nan
         Toy.fresh)
  = Return (Event_status "logged" 1) /\
  PrimFloat.is_nan <$> (score <$>
    EVENTS (fst (add_event Iso.fromisoformat "2024-03-01T12:00:05" 0
                   Toy.seen_nan Toy.fresh)))
  = [true] /\
  PrimFloat.is_nan <$> (score <$>
    load_events
      (events_json (fst (add_event Iso.fromisoformat "2024-03-01T12:00:05" 0
                           Toy.seen_nan Toy.fresh))))
  = [true].
Proof. repeat split; vm_compute; reflexivity. Qed.

(** ** Enrollment *)

Section DictFacts.

Context {V : Type}.

Lemma dict_get_set_eq (d : dict V) k v : dict_get (dict_set d k v) k = Some v.
Proof.
  induction d as [|[k' v'] d IH]; simpl.
  - now rewrite String.eqb_refl.
  - destruct (String.eqb k' k) eqn:E; simpl.
    + now rewrite String.eqb_refl.
    + now rewrite E.
Qed.

Lemma dict_get_set_ne (d : dict V) k v k0 :
  k0 <> k -> dict_get (dict_set d k v) k0 = dict_get d k0.
Proof.
  intros Hne. induction d as [|[k' v'] d IH]; simpl.
  - apply not_eq_sym, String.eqb_neq in Hne. now rewrite Hne.
  - destruct (String.eqb k' k) eqn:E; simpl.
    + apply String.eqb_eq in E. subst k'.
      apply not_eq_sym, String.eqb_neq in Hne. now rewrite Hne.
    + now rewrite IH.
Qed.

End DictFacts.

Section MeanFacts.

Import PyFloat.

(** entry [j] of the row sum is the sum, in row order, of the entries [j] *)
Lemma fold_zip_lookup (rest : list Np.array) :
  forall (a : Np.array) (j : nat) (x : float),
    a !! j = Some x ->
    Forall (fun b => length b = length a) rest ->
    exists col,
      Forall2 (fun r c => r !! j = Some c) rest col /\
      fold_left (zip_with add32) rest a !! j = Some (fold_left add32 col x).
Proof.
  induction rest as [|r rest IH]; intros a j x Hj Hlen; simpl.
  - exists []. split; [constructor | assumption].
  - inversion Hlen as [|? ? Hr Hrest]; subst.
    assert (Hc : is_Some (r !! j)).
    { apply lookup_lt_is_Some. rewrite Hr. now apply lookup_lt_is_Some. }
    destruct Hc as [c Hc].
    destruct (IH (zip_with add32 a r) j (add32 x c)) as (col & Hcol & Hsum).
    + rewrite lookup_zip_with, Hj, Hc. reflexivity.
    + rewrite length_zip_with_l_eq by (now symmetry). assumption.
    + exists (c :: col). split; [now constructor | exact Hsum].
Qed.

Lemma stack_same_shape (a : Np.array) (rest : list Np.array) :
  Forall (fun b => length b = length a) rest ->
  Np.stack (a :: rest) = Return (a :: rest).
Proof.
  intros H. unfold Np.stack.
  replace (forallb _ (a :: rest)) with true; [reflexivity|].
  symmetry. simpl. rewrite Nat.eqb_refl. simpl.
  induction H as [|b rest Hb _ IH]; simpl; [reflexivity|].
  rewrite Hb, Nat.eqb_refl. exact IH.
Qed.

End MeanFacts.

Section EnrollFacts.

Variable image : Type.
Variable imdecode : list Byte.byte -> option image.
Variable face_app_get : image -> list face.

Abbreviation embed1 := (embed_image_bytes image imdecode face_app_get).
Abbreviation embed_all := (embed_files image imdecode face_app_get).
Abbreviation enrollf := (enroll image imdecode face_app_get).

Lemma embed_files_all files :
  forall acc embs,
    Forall2 (fun f q => embed1 f = Return q) files embs ->
    embed_all files acc = Return (acc ++ embs).
Proof.
  induction files as [|f files IH]; intros acc embs H; inversion H; subst; simpl.
  - now rewrite app_nil_r.
  - match goal with E : embed1 f = _ |- _ => rewrite E end. simpl.
    rewrite (IH _ _ ltac:(eassumption)). now rewrite <- app_assoc.
Qed.

Lemma embed_files_inv files :
  forall acc out,
    embed_all files acc = Return out ->
    exists embs,
      out = acc ++ embs /\ Forall2 (fun f q => embed1 f = Return q) files embs.
Proof.
  induction files as [|f files IH]; intros acc out; simpl.
  - intros [= <-]. exists []. split; [now rewrite app_nil_r | constructor].
  - destruct (embed1 f) as [q|e] eqn:E; simpl; [|discriminate].
    intros H. destruct (IH _ _ H) as (embs & -> & Hall).
    exists (q :: embs). split; [now rewrite <- app_assoc | now constructor].
Qed.

(** the first image that fails extraction ends the loop with its error *)
Lemma embed_files_first_failure pre b post e :
  Forall (fun f => exists q, embed1 f = Return q) pre ->
  embed1 b = Raise e ->
  forall acc, embed_all (pre ++ b :: post) acc = Raise e.
Proof.
  intros Hpre Hb. induction Hpre as [|f pre [q Hq] _ IH]; intros acc; simpl.
  - now rewrite Hb.
  - rewrite Hq. simpl. apply IH.
Qed.

Lemma enroll_stores name files w gal a rest :
  name <> "" ->
  read_gallery (gallery_json w) = Return gal ->
  embed_all files [] = Return (a :: rest) ->
  Forall (fun b => length b = length a) rest ->
  enrollf name files w
  = (let gal' := dict_set gal name (Np.astype32 (Np.mean_axis0 (a :: rest))) in
     ({| EVENTS := EVENTS w; LAST_SEEN := LAST_SEEN w;
         events_json := events_json w; gallery_json := Whole gal' |},
      Return (Enrolled name (length (a :: rest)) (dict_keys gal')))).
Proof.
  intros Hname Hgal Hembs Hshape. unfold enroll.
  apply String.eqb_neq in Hname. simpl truthy. rewrite Hname. simpl negb.
  cbv iota. rewrite Hgal, Hembs, (stack_same_shape _ _ Hshape).
  reflexivity.
Qed.

End EnrollFacts.

(** C8. Enrolling [name] with samples that all yield an embedding (of one
    shape) stores, as the gallery entry of [name], the element-wise mean of
    the samples: entry [j] is the sum of the samples' entries [j], taken in
    order, divided by their number (in binary32 arithmetic).  The stored
    value is computed from the samples alone, so an earlier entry of [name]
    is replaced and does not contribute; the other entries are kept.
    Enrolling the same samples again stores the same embedding. *)
Theorem enroll_replaces_with_mean
    (image : Type) (imdecode : list Byte.byte -> option image)
    (face_app_get : image -> list face)
    (name : string) (files : list (list Byte.byte)) (w : world)
    (gal : gallery) (a : Np.array) (rest : list Np.array) :
  name <> "" ->
  read_gallery (gallery_json w) = Return gal ->
  embed_files image imdecode face_app_get files [] = Return (a :: rest) ->
  Forall (fun b => length b = length a) rest ->
  let avg := Np.astype32 (Np.mean_axis0 (a :: rest)) in
  let w' := fst (enroll image imdecode face_app_get name files w) in
  let w'' := fst (enroll image imdecode face_app_get name files w') in
  snd (enroll image imdecode face_app_get name files w)
  = Return (Enrolled name (length (a :: rest))
              (dict_keys (dict_set gal name avg))) /\
  read_gallery (gallery_json w') = Return (dict_set gal name avg) /\
  dict_get (dict_set gal name avg) name = Some avg /\
  (forall k, k <> name -> dict_get (dict_set gal name avg) k = dict_get gal k) /\
  (forall j x,
     a !! j = Some x ->
     exists col,
       Forall2 (fun r c => r !! j = Some c) rest col /\
       avg !! j
       = Some (PyFloat.float32
                 (PyFloat.div32 (fold_left PyFloat.add32 col x)
                    (PyFloat.of_nat (length (a :: rest)))))) /\
  (exists gal'',
     read_gallery (gallery_json w'') = Return gal'' /\
     dict_get gal'' name = Some avg).
Proof.
  intros Hname Hgal Hembs Hshape avg w' w''.
  pose proof (enroll_stores image imdecode face_app_get name files w gal a rest
                Hname Hgal Hembs Hshape) as E.
  cbv zeta in E. fold avg in E.
  assert (Hw' : read_gallery (gallery_json w') = Return (dict_set gal name avg))
    by (subst w'; rewrite E; reflexivity).
  split; [now rewrite E|]. split; [exact Hw'|].
  split; [apply dict_get_set_eq|].
  split; [intros k Hk; now apply dict_get_set_ne|].
  split.
  - intros j x Hj.
    destruct (fold_zip_lookup rest a j x Hj Hshape) as (col & Hcol & Hsum).
    exists col. split; [assumption|].
    subst avg. unfold Np.astype32, Np.mean_axis0, Np.div_scalar.
    rewrite !list_lookup_fmap, Hsum. reflexivity.
  - pose proof (enroll_stores image imdecode face_app_get name files w' _ a rest
                  Hname Hw' Hembs Hshape) as E'.
    cbv zeta in E'. fold avg in E'.
    exists (dict_set (dict_set gal name avg) name avg). split.
    + subst w''. rewrite E'. reflexivity.
    + apply dict_get_set_eq.
Qed.

(** Two portraits enrolled as Alice at a fresh service. *)
Lemma enroll_replaces_with_mean_witness :
  read_gallery
    (gallery_json
       (fst (enroll Toy.image Toy.imdecode Toy.face_app_get "alice"
               [Toy.portrait_a; Toy.portrait_b] Toy.fresh)))
  = Return (dict_set [] "alice"
              (Np.astype32 (Np.mean_axis0 [[3%float; 1%float];
                                           [4%float; 1%float]]))).
Proof.
  refine (proj1 (proj2
    (enroll_replaces_with_mean Toy.image Toy.imdecode Toy.face_app_get "alice"
       [Toy.portrait_a; Toy.portrait_b] Toy.fresh []
       [3%float; 1%float] [[4%float; 1%float]] _ _ _ _))).
  - discriminate.
  - reflexivity.
  - vm_compute; reflexivity.
  - repeat constructor.
Defined.

(** C2, on the code.  [enroll] calls the extractor on every upload without
    catching its error: the first upload that does not decode, or shows no
    face, ends the request with that [ValueError], the gallery untouched,
    also when uploads before or after it yield an embedding.  The reply
    "no usable images" is given for an empty list of uploads only. *)
Theorem enroll_raises_on_failed_image
    (image : Type) (imdecode : list Byte.byte -> option image)
    (face_app_get : image -> list face)
    (name : string) (pre : list (list Byte.byte)) (b : list Byte.byte)
    (post : list (list Byte.byte)) (e : exn) (w : world) (gal : gallery) :
  name <> "" ->
  read_gallery (gallery_json w) = Return gal ->
  Forall (fun f => exists q,
            embed_image_bytes image imdecode face_app_get f = Return q) pre ->
  embed_image_bytes image imdecode face_app_get b = Raise e ->
  enroll image imdecode face_app_get name (pre ++ b :: post) w = (w, Raise e) /\
  (forall files,
     snd (enroll image imdecode face_app_get name files w)
     = Return (Error_response 400 "no usable images") <-> files = []).
Proof.
  intros Hname Hgal Hpre Hb.
  assert (Hn : negb (truthy (Some name)) = false).
  { simpl. apply String.eqb_neq in Hname. now rewrite Hname. }
  split.
  - unfold enroll. rewrite Hn, Hgal.
    now rewrite (embed_files_first_failure _ _ _ pre b post e Hpre Hb).
  - intros files. unfold enroll. rewrite Hn, Hgal. split.
    + destruct (embed_files image imdecode face_app_get files []) as [embs|]
        eqn:E; simpl; [|discriminate].
      destruct (embed_files_inv _ _ _ _ _ _ E) as (embs' & -> & Hall).
      apply Forall2_length in Hall. simpl in *.
      destruct embs' as [|q embs']; [now destruct files|].
      destruct (Np.stack (q :: embs')); simpl; discriminate.
    + intros ->. reflexivity.
Qed.

(** A portrait, bytes that do not decode, and another portrait. *)
Lemma enroll_raises_on_failed_image_witness :
  enroll Toy.image Toy.imdecode Toy.face_app_get "alice"
    [Toy.portrait_a; Toy.undecodable; Toy.portrait_b] Toy.fresh
  = (Toy.fresh, Raise (ValueError "Cannot decode image")).
Proof.
  refine (proj1
    (enroll_raises_on_failed_image Toy.image Toy.imdecode Toy.face_app_get
       "alice" [Toy.portrait_a] Toy.undecodable [Toy.portrait_b]
       (ValueError "Cannot decode image") Toy.fresh [] _ _ _ _)).
  - discriminate.
  - reflexivity.
  - constructor; [|constructor]. eexists. vm_compute. reflexivity.
  - reflexivity.
Defined.

(** ** Persistence *)

Section FileFacts.

Context {A : Type}.

(** the states a file goes through while [write_text] runs *)
Lemma write_text_crash_state (data : A) (f : file A) (k : nat) :
  crash_state (write_text data) f k
  = match k with
    | O => f
    | S O => Partial
    | S (S _) => Whole data
    end.
Proof. destruct k as [|[|[|k]]]; reflexivity. Qed.

Lemma write_text_done (data : A) (f : file A) :
  run_io (write_text data) f = Whole data.
Proof. reflexivity. Qed.

End FileFacts.

(** C4, as the code has it.  A request that changes the event list leaves
    the events file holding the new list when it returns, and a successful
    enrollment leaves the gallery file holding the new gallery: each is
    written by [write_text] on the canonical file (open for writing, which
    truncates, then write), with no temporary file.  While that write runs
    the file holds the old content, then a truncated or partial text, then
    the new content. *)
Theorem mutations_rewrite_the_file_in_place
    (fromisoformat : string -> option float) (image : Type)
    (imdecode : list Byte.byte -> option image)
    (face_app_get : image -> list face)
    (utcnow_iso : string) (clock : float) (r : request) (w : world) :
  let w' := fst (serve fromisoformat image imdecode face_app_get
                   utcnow_iso clock r w) in
  ((EVENTS w' = EVENTS w /\ events_json w' = events_json w) \/
   (events_json w' = run_io (save_events (EVENTS w')) (events_json w) /\
    events_json w' = Whole (EVENTS w') /\
    load_events (events_json w') = EVENTS w')) /\
  (gallery_json w' = gallery_json w \/
   exists gal',
     gallery_json w' = run_io (write_gallery gal') (gallery_json w) /\
     gallery_json w' = Whole gal' /\
     read_gallery (gallery_json w') = Return gal') /\
  (forall evs k,
     crash_state (save_events evs) (events_json w) k
     = match k with
       | O => events_json w
       | S O => Partial
       | S (S _) => Whole evs
       end) /\
  (forall gal' k,
     crash_state (write_gallery gal') (gallery_json w) k
     = match k with
       | O => gallery_json w
       | S O => Partial
       | S (S _) => Whole gal'
       end).
Proof.
  intros w'. subst w'.
  split; [|split; [|split]].
  - destruct r; simpl; auto.
    + unfold enroll. repeat case_match; simpl; auto.
    + unfold match_. repeat case_match; simpl; auto.
    + unfold add_event. repeat case_match; simpl; auto.
  - destruct r; simpl; auto.
    + unfold enroll. repeat case_match; simpl; auto.
      right. eexists. repeat split.
    + unfold match_. repeat case_match; simpl; auto.
    + unfold add_event. repeat case_match; simpl; auto.
  - intros evs k. apply write_text_crash_state.
  - intros gal' k. apply write_text_crash_state.
Qed.

(** C4 fails as stated: the service holds one event and a second one is
    posted.  The handler rewrites the events file in place; after the first
    step of that write the file is truncated, and a service started on it
    loads no event: neither the list before the request nor the list after
    it.  The gallery file is written the same way, and a truncated gallery
    file makes [read_gallery] raise. *)
Lemma rewrite_in_place_is_not_all_or_nothing :
  events_json
    (fst (add_event Iso.fromisoformat "2024-03-01T12:01:00" 0
            Toy.seen_unknown Toy.one_event))
  = run_io
      (save_events
         (EVENTS (fst (add_event Iso.fromisoformat "2024-03-01T12:01:00" 0
                         Toy.seen_unknown Toy.one_event))))
      (events_json Toy.one_event) /\
  length (EVENTS Toy.one_event) = 1%nat /\
  length (EVENTS (fst (add_event Iso.fromisoformat "2024-03-01T12:01:00" 0
                         Toy.seen_unknown Toy.one_event))) = 2%nat /\
  length
    (EVENTS
       (startup
          (crash_state
             (save_events
                (EVENTS (fst (add_event Iso.fromisoformat "2024-03-01T12:01:00"
                                0 Toy.seen_unknown Toy.one_event))))
             (events_json Toy.one_event) 1)
          NoFile)) = 0%nat /\
  read_gallery
    (crash_state
       (write_gallery
          (dict_set [("alice", [3%float; 1%float])] "bob" [3%float; 1%float]))
       (gallery_json Toy.alice_enrolled) 1)
  = Raise JSONDecodeError /\
  gallery_json Toy.two_enrolled
  = run_io
      (write_gallery
         (dict_set [("alice", [3%float; 1%float])] "bob" [3%float; 1%float]))
      (gallery_json Toy.alice_enrolled).
Proof. repeat split; vm_compute; reflexivity. Qed.

(** * Further properties of the service *)

(** ** One request, step by step *)

Section StepFacts.

Variable fromisoformat : string -> option float.
Variable image : Type.
Variable imdecode : list Byte.byte -> option image.
Variable face_app_get : image -> list face.

Abbreviation serve1 := (serve fromisoformat image imdecode face_app_get).
Abbreviation run := (serve_all fromisoformat image imdecode face_app_get).

(** what a request does to the event list, its file and the cache: nothing;
    or one row appended after an accepting debounce check on the row's own
    key and timestamp; or the list cleared *)
Lemma serve_step utcnow_iso clock r w :
  let w' := fst (serve1 utcnow_iso clock r w) in
  (EVENTS w' = EVENTS w /\ events_json w' = events_json w /\
   LAST_SEEN w' = LAST_SEEN w) \/
  (exists row,
     EVENTS w' = EVENTS w ++ [row] /\
     events_json w' = Whole (EVENTS w') /\
     _should_log fromisoformat clock (person row) (camera row)
       (Some (timestamp row)) (LAST_SEEN w) = Return (true, LAST_SEEN w') /\
     (timestamp row = utcnow_iso \/
      exists ev, r = POST_events ev /\
                 timestamp row = timestamp_or ev utcnow_iso)) \/
  (r = POST_events_clear /\ EVENTS w' = [] /\ events_json w' = Whole [] /\
   LAST_SEEN w' = LAST_SEEN w).
Proof.
  destruct r as [|name files|upload thr cam| |ev| |]; simpl; auto.
  - unfold enroll. repeat case_match; simpl; auto.
  - unfold match_. repeat case_match; simpl; auto; subst.
    + right. left. eexists.
      split; [reflexivity|]. split; [reflexivity|].
      split; [simpl; eassumption|]. now left.
    + match goal with H : _should_log _ _ _ _ _ _ = Return (false, _) |- _ =>
        destruct (should_log_inv _ _ _ _ _ _ _ _ H)
          as (? & _ & [(_ & -> & _) | ([=] & _)])
      end. auto.
  - unfold add_event. repeat case_match; simpl; auto; subst.
    + right. left. eexists.
      split; [reflexivity|]. split; [reflexivity|].
      split; [simpl; eassumption|]. right. now exists ev.
    + match goal with H : _should_log _ _ _ _ _ _ = Return (false, _) |- _ =>
        destruct (should_log_inv _ _ _ _ _ _ _ _ H)
          as (? & _ & [(_ & -> & _) | ([=] & _)])
      end. auto.
  - right. right. repeat split.
Qed.

End StepFacts.

(** ** The event list and its file *)

(** X1. From startup on, the events file always holds the event list: after
    any run of requests, a service restarted on the files left behind loads
    exactly the events the running service had in memory. *)
Theorem restart_reloads_the_events
    (fromisoformat : string -> option float) (image : Type)
    (imdecode : list Byte.byte -> option image)
    (face_app_get : image -> list face)
    (events_file : file (list event_row)) (gallery_file : file gallery)
    (rs : list (string * float * request)) :
  let w := serve_all fromisoformat image imdecode face_app_get rs
             (startup events_file gallery_file) in
  EVENTS (startup (events_json w) (gallery_json w)) = EVENTS w.
Proof.
  simpl.
  assert (Hinv : forall rs w,
             load_events (events_json w) = EVENTS w ->
             load_events
               (events_json
                  (serve_all fromisoformat image imdecode face_app_get rs w))
             = EVENTS (serve_all fromisoformat image imdecode face_app_get
                         rs w)).
  { clear. induction rs as [|[[utcnow_iso clock] r] rs IH]; intros w Hw; simpl.
    - exact Hw.
    - apply IH.
      destruct (serve_step fromisoformat image imdecode face_app_get
                  utcnow_iso clock r w)
        as [(-> & -> & _) | [(row & _ & -> & _) | (_ & -> & -> & _)]];
        trivial. }
  apply Hinv. reflexivity.
Qed.

(** X2. Stored events are never changed or reordered: every request other
    than [POST /events/clear] leaves the old event list as a prefix of the
    new one and adds at most one event; clearing empties the list and keeps
    the debounce cache. *)
Theorem event_list_is_append_only
    (fromisoformat : string -> option float) (image : Type)
    (imdecode : list Byte.byte -> option image)
    (face_app_get : image -> list face)
    (utcnow_iso : string) (clock : float) (r : request) (w : world) :
  let w' := fst (serve fromisoformat image imdecode face_app_get
                   utcnow_iso clock r w) in
  (r <> POST_events_clear ->
   EVENTS w `prefix_of` EVENTS w' /\
   (length (EVENTS w') <= S (length (EVENTS w)))%nat) /\
  (r = POST_events_clear ->
   EVENTS w' = [] /\ LAST_SEEN w' = LAST_SEEN w /\
   load_events (events_json w') = []).
Proof.
  intros w'. subst w'.
  destruct (serve_step fromisoformat image imdecode face_app_get
              utcnow_iso clock r w)
    as [(HE & _ & HL) | [(row & HE & _) | (Hr & HE & HF & HL)]].
  - split.
    + intros _. rewrite HE. split; [reflexivity | lia].
    + intros ->. simpl. repeat split.
  - split.
    + intros _. rewrite HE. split.
      * now exists [row].
      * rewrite length_app. simpl. lia.
    + intros ->. simpl. repeat split.
  - split; [congruence|]. intros _. rewrite HE, HF, HL. repeat split.
Qed.

(** ** Logged events of one key lie a window apart *)

Section SpacingFacts.

Variable fromisoformat : string -> option float.
Variable image : Type.
Variable imdecode : list Byte.byte -> option image.
Variable face_app_get : image -> list face.

Hypothesis timestamps_finite :
  forall s t, fromisoformat s = Some t -> PrimFloat.is_finite t = true.

Lemma timestamp_or_nonempty ev utcnow_iso :
  utcnow_iso <> "" -> truthy (Some (timestamp_or ev utcnow_iso)) = true.
Proof.
  intros Hne. unfold timestamp_or.
  destruct (truthy (ev_timestamp ev)) eqn:Ht.
  - destruct (ev_timestamp ev) as [s|]; [exact Ht | discriminate].
  - simpl. apply String.eqb_neq in Hne. now rewrite Hne.
Qed.

Lemma same_key_pair (r1 r2 : event_row) :
  same_key r1 r2 <-> (person r2, camera r2) = (person r1, camera r1).
Proof. unfold same_key. split; [intros [-> ->] | intros [= -> ->]]; auto. Qed.

Lemma spaced_step utcnow_iso clock r w :
  utcnow_iso <> "" ->
  spaced fromisoformat (EVENTS w) /\ covered fromisoformat w ->
  let w' := fst (serve fromisoformat image imdecode face_app_get
                   utcnow_iso clock r w) in
  spaced fromisoformat (EVENTS w') /\ covered fromisoformat w'.
Proof.
  intros Hne [Hsp Hcov] w'. subst w'.
  destruct (serve_step fromisoformat image imdecode face_app_get
              utcnow_iso clock r w)
    as [(HE & _ & HL) | [(row & HE & _ & Hlog & Hts) | (_ & HE & _ & _)]].
  - unfold spaced, covered. rewrite HE, HL. auto.
  - assert (Htruthy : truthy (Some (timestamp row)) = true).
    { destruct Hts as [-> | (ev & _ & ->)].
      - simpl. apply String.eqb_neq in Hne. now rewrite Hne.
      - now apply timestamp_or_nonempty. }
    destruct (should_log_inv _ _ _ _ _ _ _ _ Hlog)
      as (t & Hnow & [([=] & _) | (_ & HLS & Hwin)]).
    assert (Hrow : row_time fromisoformat row = Some t).
    { unfold now_timestamp in Hnow. rewrite Htruthy in Hnow. simpl in Hnow.
      unfold parse_timestamp in Hnow. unfold row_time.
      destruct (fromisoformat (timestamp row)); [|discriminate].
      now injection Hnow as ->. }
    pose proof (timestamps_finite _ _ Hrow) as Ht.
    (* an earlier event of the new event's key is earlier in time *)
    assert (Hbefore : forall i ri,
               EVENTS w !! i = Some ri -> same_key ri row ->
               exists ti last,
                 row_time fromisoformat ri = Some ti /\
                 LAST_SEEN w !! (person row, camera row) = Some last /\
                 (ti <? t)%float = true /\
                 (t - last <? float_of_int DEDUPE_WINDOW_SEC)%float = false /\
                 ((forall k rk, (i < k)%nat -> EVENTS w !! k = Some rk ->
                                ~ same_key ri rk) -> ti = last)).
    { intros i ri Hi Hkey.
      destruct (Hcov i ri Hi) as (ti & last & Hti & Hlast & Hfin & Hle & Hend).
      apply same_key_pair in Hkey as Hpair. rewrite <- Hpair in Hlast.
      exists ti, last. repeat split; trivial.
      - pose proof (sub_later t last Ht Hfin (Hwin _ Hlast)) as Hlater.
        destruct Hle as [->|Hlt]; [assumption|].
        rewrite ltb_spec in *. eapply SFltb_trans; eassumption.
      - auto. }
    split.
    + intros i j ri rj Hij Hi Hj Hkey. rewrite HE in Hi, Hj.
      apply lookup_snoc_Some in Hj as [[Hjlt Hj] | [-> <-]].
      * apply lookup_app_Some in Hi as [Hi | [Hge _]]; [|lia].
        destruct (Hsp i j ri rj Hij Hi Hj Hkey)
          as (ti & tj & Hti & Htj & Hlt & Hadj).
        exists ti, tj. repeat split; trivial.
        intros Hbetween. apply Hadj. intros k rk Hk Hrk.
        apply (Hbetween k rk Hk). rewrite HE.
        now apply lookup_app_l_Some.
      * rewrite lookup_app_l in Hi by assumption.
        destruct (Hbefore i ri Hi Hkey)
          as (ti & last & Hti & Hlast & Hlt & Hw & Hend).
        exists ti, t. repeat split; trivial.
        intros Hbetween. rewrite Hend; [assumption|].
        intros k rk Hk Hrk. apply (Hbetween k rk).
        -- split; [assumption|]. now apply lookup_lt_Some in Hrk.
        -- rewrite HE. now apply lookup_app_l_Some.
    + intros i ri Hi. rewrite HE in Hi. rewrite HLS.
      apply lookup_snoc_Some in Hi as [[Hilt Hi] | [-> <-]].
      * destruct (decide ((person row, camera row) = (person ri, camera ri)))
          as [Heq | Hneq].
        -- apply same_key_pair in Heq as Hkey.
           destruct (Hbefore i ri Hi Hkey)
             as (ti & last & Hti & Hlast & Hlt & Hw & Hend).
           exists ti, t. rewrite <- Heq, lookup_insert_eq.
           repeat split; auto.
           intros Hlater. exfalso.
           apply (Hlater (length (EVENTS w)) row Hilt); [|assumption].
           rewrite HE. now apply list_lookup_middle.
        -- destruct (Hcov i ri Hi)
             as (ti & last & Hti & Hlast & Hfin & Hle & Hend).
           exists ti, last. rewrite lookup_insert_ne by assumption.
           repeat split; trivial.
           intros Hlater. apply Hend. intros k rk Hk Hrk.
           apply (Hlater k rk Hk). rewrite HE.
           now apply lookup_app_l_Some.
      * exists t, t. rewrite lookup_insert_eq. repeat split; auto.
  - unfold spaced, covered. rewrite HE. split; intros; simplify_eq.
Qed.

End SpacingFacts.

(** X3. Started with an empty event list, the events the service holds for
    one person and camera are stored in strictly increasing time, and none
    of them lies within the 30-second window of the one stored before it
    for that person and camera; time and window are measured as the
    debounce check measures them, on finite binary64 timestamps.  This
    holds after any run of requests, each served at a non-empty clock
    text. *)
Theorem logged_events_are_spaced
    (fromisoformat : string -> option float) (image : Type)
    (imdecode : list Byte.byte -> option image)
    (face_app_get : image -> list face)
    (rs : list (string * float * request)) (w0 : world) :
  (forall s t, fromisoformat s = Some t -> PrimFloat.is_finite t = true) ->
  EVENTS w0 = [] ->
  Forall (fun q => fst (fst q) <> "") rs ->
  spaced fromisoformat
    (EVENTS (serve_all fromisoformat image imdecode face_app_get rs w0)).
Proof.
  intros Hlib Hempty Hclock.
  assert (Hinv : spaced fromisoformat (EVENTS w0) /\ covered fromisoformat w0).
  { unfold spaced, covered. rewrite Hempty. split; intros; simplify_eq. }
  clear Hempty. revert w0 Hinv.
  induction Hclock as [|[[utcnow_iso clock] r] rs Hne _ IH]; intros w0 Hinv.
  - exact (proj1 Hinv).
  - simpl. apply IH.
    exact (spaced_step fromisoformat image imdecode face_app_get Hlib
             utcnow_iso clock r w0 Hne Hinv).
Qed.

(** Bob seen three times on one camera: at noon, five seconds later
    (skipped), and a minute later. *)
Lemma logged_events_are_spaced_witness :
  spaced Iso.fromisoformat
    (EVENTS
       (serve_all Iso.fromisoformat Toy.image Toy.imdecode Toy.face_app_get
          [("2024-03-01T12:00:00", 0%float, POST_events Toy.seen_bob);
           ("2024-03-01T12:00:05", 0%float,
            POST_events (Worker.frame_event "bob" 0.5 true "cam1"));
           ("2024-03-01T12:01:00", 0%float,
            POST_events (Worker.frame_event "bob" 0.5 true "cam1"))]
          Toy.fresh)).
Proof.
  apply (logged_events_are_spaced Iso.fromisoformat Toy.image Toy.imdecode
           Toy.face_app_get).
  - exact Iso_fromisoformat_finite.
  - reflexivity.
  - repeat constructor; discriminate.
Defined.

(** ** More on the debounce check *)

Section ClockFacts.

Variable fromisoformat : string -> option float.

(** a non-empty text is read by [fromisoformat], the clock is not used *)
Lemma now_timestamp_text clock ts t :
  ts <> "" -> fromisoformat ts = Some t ->
  now_timestamp fromisoformat clock (Some ts) = Return t.
Proof.
  intros Hne Ht. unfold now_timestamp, parse_timestamp. simpl.
  apply String.eqb_neq in Hne. now rewrite Hne, Ht.
Qed.

Lemma now_timestamp_unreadable clock ts :
  ts <> "" -> fromisoformat ts = None ->
  exists e, now_timestamp fromisoformat clock (Some ts) = Raise e.
Proof.
  intros Hne Ht. unfold now_timestamp, parse_timestamp. simpl.
  apply String.eqb_neq in Hne. rewrite Hne, Ht. simpl. eauto.
Qed.

(** the decision depends on the cache at the key only *)
Lemma should_log_same_lookup clock person camera ts_iso LS LS' :
  LS' !! (person, camera) = LS !! (person, camera) ->
  match _should_log fromisoformat clock person camera ts_iso LS,
        _should_log fromisoformat clock person camera ts_iso LS' with
  | Return (b, _), Return (b', _) => b = b'
  | Raise e, Raise e' => e = e'
  | _, _ => False
  end.
Proof.
  intros Hsame.
  destruct (now_timestamp fromisoformat clock ts_iso) as [t|e] eqn:Hnow.
  - rewrite !(should_log_unfold _ _ _ _ _ _ _ Hnow), Hsame.
    destruct (LS !! (person, camera)) as [last|]; [|reflexivity].
    destruct (t - last <? float_of_int DEDUPE_WINDOW_SEC)%float; reflexivity.
  - now rewrite !(should_log_raises _ _ _ _ _ _ _ Hnow).
Qed.

End ClockFacts.

(** X4. The debounce check is per (person, camera): a call for one key,
    accepted or not, leaves the cached time of every other key as it was,
    and the answer a later call for another key gets is the one it would
    have got without it. *)
Theorem debounce_keys_are_independent
    (fromisoformat : string -> option float)
    (clock1 clock2 : float) (person1 camera1 person2 camera2 : string)
    (ts1 ts2 : option string) (b1 : bool) (LS LS1 : gmap (string * string) float) :
  _should_log fromisoformat clock1 person1 camera1 ts1 LS = Return (b1, LS1) ->
  (person1, camera1) <> (person2, camera2) ->
  LS1 !! (person2, camera2) = LS !! (person2, camera2) /\
  match _should_log fromisoformat clock2 person2 camera2 ts2 LS,
        _should_log fromisoformat clock2 person2 camera2 ts2 LS1 with
  | Return (b, _), Return (b', _) => b = b'
  | Raise e, Raise e' => e = e'
  | _, _ => False
  end.
Proof.
  intros Hlog Hne.
  assert (Hsame : LS1 !! (person2, camera2) = LS !! (person2, camera2)).
  { destruct (should_log_inv _ _ _ _ _ _ _ _ Hlog)
      as (t & _ & [(_ & -> & _) | (_ & -> & _)]); [reflexivity|].
    now apply lookup_insert_ne. }
  split; [exact Hsame|]. now apply should_log_same_lookup.
Qed.

(** Bob seen on camera 1 does not hide Bob on camera 2 a second later. *)
Lemma debounce_keys_are_independent_witness :
  ({[ ("bob", "cam1") := 1709294400%float ]} : gmap (string * string) float)
    !! ("bob", "cam2")
  = (∅ : gmap (string * string) float) !! ("bob", "cam2") /\
  match _should_log Iso.fromisoformat 0 "bob" "cam2"
          (Some "2024-03-01T12:00:01") ∅,
        _should_log Iso.fromisoformat 0 "bob" "cam2"
          (Some "2024-03-01T12:00:01")
          {[ ("bob", "cam1") := 1709294400%float ]} with
  | Return (b, _), Return (b', _) => b = b'
  | Raise e, Raise e' => e = e'
  | _, _ => False
  end.
Proof.
  apply (debounce_keys_are_independent Iso.fromisoformat 0 0 "bob" "cam1"
           "bob" "cam2" (Some "2024-03-01T12:00:00")
           (Some "2024-03-01T12:00:01") true ∅
           {[ ("bob", "cam1") := 1709294400%float ]}).
  - reflexivity.
  - discriminate.
Defined.

(** X5. Clearing the events does not clear the debounce cache: an event
    posted after [POST /events/clear] whose timestamp is less than the
    window after the one cached for its key (the binary64 difference of
    the two is below 30) is answered "skipped_duplicate" with count 0, and
    the list stays empty. *)
Theorem clear_keeps_the_debounce_cache
    (fromisoformat : string -> option float) (utcnow_iso : string) (clock : float)
    (ev : Event) (w : world) (t last : float) :
  LAST_SEEN w !! (ev_person ev, ev_camera ev) = Some last ->
  now_timestamp fromisoformat clock (Some (timestamp_or ev utcnow_iso))
  = Return t ->
  (t - last <? float_of_int DEDUPE_WINDOW_SEC)%float = true ->
  add_event fromisoformat utcnow_iso clock ev (fst (clear_events w))
  = (fst (clear_events w), Return (Event_status "skipped_duplicate" 0)).
Proof.
  intros Hlast Hnow Hlt.
  assert (Hlog : _should_log fromisoformat clock (ev_person ev) (ev_camera ev)
                   (Some (timestamp_or ev utcnow_iso))
                   (LAST_SEEN (fst (clear_events w)))
                 = Return (false, LAST_SEEN w)).
  { rewrite (should_log_unfold _ _ _ _ _ _ _ Hnow). simpl. rewrite Hlast.
    now rewrite Hlt. }
  now rewrite (add_event_skipped _ _ _ _ _ _ Hlog).
Qed.

(** Bob logged at noon, the list cleared, Bob posted again ten seconds
    later. *)
Lemma clear_keeps_the_debounce_cache_witness :
  add_event Iso.fromisoformat "2024-03-01T12:00:10" 0
    (Worker.frame_event "bob" 0.5 true "cam1") (fst (clear_events Toy.one_event))
  = (fst (clear_events Toy.one_event),
     Return (Event_status "skipped_duplicate" 0)).
Proof.
  apply (clear_keeps_the_debounce_cache Iso.fromisoformat
           "2024-03-01T12:00:10" 0 (Worker.frame_event "bob" 0.5 true "cam1")
           Toy.one_event 1709294410 1709294400).
  - vm_compute. reflexivity.
  - reflexivity.
  - reflexivity.
Defined.

(** X6. The debounce cache is not persisted: on a freshly started service
    the first event of every key is accepted, whatever the events file
    loaded at startup holds, and is appended after the loaded events. *)
Theorem restart_forgets_the_debounce_cache
    (fromisoformat : string -> option float) (utcnow_iso : string) (clock : float)
    (ev : Event) (events_file : file (list event_row))
    (gallery_file : file gallery) (t : float) :
  now_timestamp fromisoformat clock (Some (timestamp_or ev utcnow_iso))
  = Return t ->
  snd (add_event fromisoformat utcnow_iso clock ev
         (startup events_file gallery_file))
  = Return (Event_status "logged" (S (length (load_events events_file)))) /\
  EVENTS (fst (add_event fromisoformat utcnow_iso clock ev
                 (startup events_file gallery_file)))
  = load_events events_file ++ [row_of ev utcnow_iso] /\
  LAST_SEEN (fst (add_event fromisoformat utcnow_iso clock ev
                    (startup events_file gallery_file)))
  = {[ (ev_person ev, ev_camera ev) := t ]}.
Proof.
  intros Hnow.
  assert (Hlog : _should_log fromisoformat clock (ev_person ev) (ev_camera ev)
                   (Some (timestamp_or ev utcnow_iso))
                   (LAST_SEEN (startup events_file gallery_file))
                 = Return (true, {[ (ev_person ev, ev_camera ev) := t ]})).
  { rewrite (should_log_unfold _ _ _ _ _ _ _ Hnow). simpl.
    rewrite lookup_empty. reflexivity. }
  rewrite (add_event_logged _ _ _ _ _ _ Hlog). simpl.
  rewrite length_app. simpl. repeat split. f_equal. f_equal. lia.
Qed.

(** The service restarted on the file that holds Bob's noon event; Bob
    posted again one second after noon. *)
Lemma restart_forgets_the_debounce_cache_witness :
  snd (add_event Iso.fromisoformat "2024-03-01T12:00:01" 0
         (Worker.frame_event "bob" 0.5 true "cam1")
         (startup (events_json Toy.one_event) NoFile))
  = Return (Event_status "logged"
              (S (length (load_events (events_json Toy.one_event))))).
Proof.
  refine (proj1
    (restart_forgets_the_debounce_cache Iso.fromisoformat
       "2024-03-01T12:00:01" 0 (Worker.frame_event "bob" 0.5 true "cam1")
       (events_json Toy.one_event) NoFile 1709294401 _)).
  reflexivity.
Defined.

(** X7. An event posted with a non-empty timestamp that [fromisoformat]
    does not read is not answered: the handler raises, and no event is
    stored and the cache is not touched.  A missing or empty timestamp is
    replaced by the server's clock text, which is then both stored and used
    for the debounce check. *)
Theorem unreadable_timestamp_raises
    (fromisoformat : string -> option float) (utcnow_iso : string) (clock : float)
    (ev : Event) (w : world) (ts : string) :
  ev_timestamp ev = Some ts -> ts <> "" -> fromisoformat ts = None ->
  (exists e, add_event fromisoformat utcnow_iso clock ev w = (w, Raise e)) /\
  (forall ev0,
     ev_timestamp ev0 = None \/ ev_timestamp ev0 = Some "" ->
     timestamp_or ev0 utcnow_iso = utcnow_iso /\
     add_event fromisoformat utcnow_iso clock ev0 w
     = add_event fromisoformat utcnow_iso clock
         {| ev_person := ev_person ev0; ev_score := ev_score ev0;
            ev_camera := ev_camera ev0; ev_timestamp := Some utcnow_iso |} w).
Proof.
  intros Hts Hne Hbad. split.
  - assert (Hor : timestamp_or ev utcnow_iso = ts).
    { unfold timestamp_or. rewrite Hts. simpl.
      apply String.eqb_neq in Hne. now rewrite Hne. }
    destruct (now_timestamp_unreadable fromisoformat clock ts Hne Hbad)
      as [e He].
    exists e. apply add_event_raises. rewrite Hor.
    now apply should_log_raises.
  - intros ev0 Hmissing.
    assert (Hor : timestamp_or ev0 utcnow_iso = utcnow_iso)
      by (unfold timestamp_or; destruct Hmissing as [-> | ->]; reflexivity).
    split; [exact Hor|].
    unfold add_event. rewrite Hor. simpl ev_person. simpl ev_camera.
    simpl ev_score.
    replace (timestamp_or _ utcnow_iso) with utcnow_iso; [reflexivity|].
    unfold timestamp_or. simpl.
    destruct (String.eqb utcnow_iso ""); reflexivity.
Qed.

(** An event stamped "yesterday". *)
Lemma unreadable_timestamp_raises_witness :
  exists e,
    add_event Iso.fromisoformat "2024-03-01T12:00:00" 0
      {| ev_person := "bob"; ev_score := 0.5; ev_camera := "cam1";
         ev_timestamp := Some "yesterday" |} Toy.one_event
    = (Toy.one_event, Raise e).
Proof.
  refine (proj1
    (unreadable_timestamp_raises Iso.fromisoformat "2024-03-01T12:00:00" 0
       {| ev_person := "bob"; ev_score := 0.5; ev_camera := "cam1";
          ev_timestamp := Some "yesterday" |} Toy.one_event "yesterday"
       _ _ _)).
  - reflexivity.
  - discriminate.
  - reflexivity.
Defined.

(** ** More on matching *)

Section MatchEval.

Variable fromisoformat : string -> option float.
Variable image : Type.
Variable imdecode : list Byte.byte -> option image.
Variable face_app_get : image -> list face.

(** [match] past the scoring *)
Lemma match_eval utcnow_iso clock file thr cam w gal q scores n bs :
  read_gallery (gallery_json w) = Return gal -> gal <> [] ->
  embed_image_bytes image imdecode face_app_get file = Return q ->
  score_all gal q = Return scores ->
  py_max float_gt snd scores = Return (n, bs) ->
  match_ fromisoformat image imdecode face_app_get utcnow_iso clock file thr
    cam w
  = if float_ge bs thr then
      match _should_log fromisoformat clock n cam (Some utcnow_iso)
              (LAST_SEEN w) with
      | Raise e => (w, Raise e)
      | Return (true, LS') =>
          (append_event
             {| person := n; score := PyFloat.py_round3 bs; camera := cam;
                timestamp := utcnow_iso |} LS' w,
           Return (Matched (round_scores scores) n (PyFloat.py_round3 bs)
                     true thr true))
      | Return (false, LS') =>
          (set_LAST_SEEN LS' w,
           Return (Matched (round_scores scores) n (PyFloat.py_round3 bs)
                     true thr false))
      end
    else (w, Return (Matched (round_scores scores) n (PyFloat.py_round3 bs)
                       false thr false)).
Proof.
  intros Hgal Hne Hq Hs Hmax. unfold match_. rewrite Hgal.
  destruct gal as [|entry rest]; [contradiction|].
  rewrite Hq, Hs, Hmax. destruct (float_ge bs thr); reflexivity.
Qed.

(** a logged match, taken apart *)
Lemma match_logged utcnow_iso clock file thr cam w w1 s n b t1 :
  match_ fromisoformat image imdecode face_app_get utcnow_iso clock file thr
    cam w = (w1, Return (Matched s n b true thr true)) ->
  utcnow_iso <> "" -> fromisoformat utcnow_iso = Some t1 ->
  exists gal q scores bs,
    read_gallery (gallery_json w1) = Return gal /\ gal <> [] /\
    embed_image_bytes image imdecode face_app_get file = Return q /\
    score_all gal q = Return scores /\
    py_max float_gt snd scores = Return (n, bs) /\
    s = round_scores scores /\ b = PyFloat.py_round3 bs /\
    float_ge bs thr = true /\
    LAST_SEEN w1 = <[(n, cam) := t1]> (LAST_SEEN w) /\
    EVENTS w1 = EVENTS w ++ [ {| person := n; score := b; camera := cam;
                                 timestamp := utcnow_iso |} ].
Proof.
  intros H Hne Ht1.
  destruct (match_Matched _ _ _ _ _ _ _ _ _ _ _ _ _ _ _ _ _ H)
    as (gal & q & scores & bs & Hgal & Hgne & Hq & Hs & Hmax & -> & -> & Hm & _
        & [([=] & _) | (_ & LS' & Hlog & ->)]).
  destruct (should_log_inv _ _ _ _ _ _ _ _ Hlog)
    as (t & Hnow & [([=] & _) | (_ & -> & _)]).
  rewrite (now_timestamp_text fromisoformat clock utcnow_iso t1 Hne Ht1) in Hnow.
  injection Hnow as <-.
  exists gal, q, scores, bs. simpl. repeat split; trivial. now symmetry.
Qed.

End MatchEval.

(** X8. The automatic log of [match] is debounced: once a match request
    was answered [match = true] and [logged = true], the same upload
    matched again on the same camera at a clock text whose timestamp is
    less than the window after the first one's (the binary64 difference of
    the two is below 30) gets the same scores and best name with
    [logged = false], and changes nothing. *)
Theorem repeated_match_is_logged_once
    (fromisoformat : string -> option float) (image : Type)
    (imdecode : list Byte.byte -> option image)
    (face_app_get : image -> list face)
    (utcnow_iso1 utcnow_iso2 : string) (clock1 clock2 : float)
    (file : list Byte.byte) (thr : float) (cam : string) (w w1 : world)
    (s : dict float) (n : string) (b : float) (t1 t2 : float) :
  match_ fromisoformat image imdecode face_app_get utcnow_iso1 clock1 file
    thr cam w = (w1, Return (Matched s n b true thr true)) ->
  utcnow_iso1 <> "" -> fromisoformat utcnow_iso1 = Some t1 ->
  utcnow_iso2 <> "" -> fromisoformat utcnow_iso2 = Some t2 ->
  (t2 - t1 <? float_of_int DEDUPE_WINDOW_SEC)%float = true ->
  match_ fromisoformat image imdecode face_app_get utcnow_iso2 clock2 file
    thr cam w1 = (w1, Return (Matched s n b true thr false)).
Proof.
  intros H Hne1 Ht1 Hne2 Ht2 Hlt.
  destruct (match_logged _ _ _ _ _ _ _ _ _ _ _ _ _ _ _ H Hne1 Ht1)
    as (gal & q & scores & bs & Hgal & Hgne & Hq & Hs & Hmax & -> & -> & Hge
        & HLS & _).
  rewrite (match_eval _ _ _ _ utcnow_iso2 clock2 _ thr cam w1 _ _ _ _ _
             Hgal Hgne Hq Hs Hmax), Hge.
  rewrite (should_log_unfold _ _ _ _ _ _ _
             (now_timestamp_text fromisoformat clock2 _ _ Hne2 Ht2)).
  rewrite HLS, lookup_insert_eq. rewrite Hlt.
  rewrite <- HLS. now rewrite set_LAST_SEEN_same.
Qed.

(** Alice matched at noon and again seven seconds later. *)
Lemma repeated_match_is_logged_once_witness :
  exists w1 s n b,
    match_ Iso.fromisoformat Toy.image Toy.imdecode Toy.face_app_get
      "2024-03-01T12:00:07" 5 Toy.portrait_a 0.5 "cam1" w1
    = (w1, Return (Matched s n b true 0.5 false)).
Proof.
  assert (E1 : match_ Iso.fromisoformat Toy.image Toy.imdecode Toy.face_app_get
                 "2024-03-01T12:00:00" 0 Toy.portrait_a 0.5 "cam1"
                 Toy.two_enrolled = Toy.tie_reply1)
    by (vm_compute; reflexivity).
  unfold Toy.tie_reply1 in E1.
  do 4 eexists.
  refine (repeated_match_is_logged_once Iso.fromisoformat Toy.image
            Toy.imdecode Toy.face_app_get "2024-03-01T12:00:00"
            "2024-03-01T12:00:07" 0 5 Toy.portrait_a 0.5 "cam1"
            Toy.two_enrolled _ _ _ _ 1709294400 1709294407
            E1 _ _ _ _ _).
  - discriminate.
  - reflexivity.
  - discriminate.
  - reflexivity.
  - reflexivity.
Defined.

(** X9. A frame the service matched and logged is not logged twice: the
    event the frame simulator posts for it next (the best name, the
    reported score, the same camera, no timestamp), served at a clock text
    whose timestamp is less than the window after the match's (the
    binary64 difference of the two is below 30), is answered
    "skipped_duplicate" and changes nothing. *)
Theorem matched_frame_is_logged_once
    (fromisoformat : string -> option float) (image : Type)
    (imdecode : list Byte.byte -> option image)
    (face_app_get : image -> list face)
    (utcnow_iso1 utcnow_iso2 : string) (clock1 clock2 : float)
    (file : list Byte.byte) (thr : float) (cam : string) (w w1 : world)
    (s : dict float) (n : string) (b : float) (t1 t2 : float) :
  match_ fromisoformat image imdecode face_app_get utcnow_iso1 clock1 file
    thr cam w = (w1, Return (Matched s n b true thr true)) ->
  utcnow_iso1 <> "" -> fromisoformat utcnow_iso1 = Some t1 ->
  utcnow_iso2 <> "" -> fromisoformat utcnow_iso2 = Some t2 ->
  (t2 - t1 <? float_of_int DEDUPE_WINDOW_SEC)%float = true ->
  add_event fromisoformat utcnow_iso2 clock2 (Worker.frame_event n b true cam)
    w1
  = (w1, Return (Event_status "skipped_duplicate" (S (length (EVENTS w))))).
Proof.
  intros H Hne1 Ht1 Hne2 Ht2 Hlt.
  destruct (match_logged _ _ _ _ _ _ _ _ _ _ _ _ _ _ _ H Hne1 Ht1)
    as (gal & q & scores & bs & _ & _ & _ & _ & _ & _ & _ & _ & HLS & HE).
  assert (Hlog : _should_log fromisoformat clock2
                   (ev_person (Worker.frame_event n b true cam))
                   (ev_camera (Worker.frame_event n b true cam))
                   (Some (timestamp_or (Worker.frame_event n b true cam)
                            utcnow_iso2))
                   (LAST_SEEN w1)
                 = Return (false, LAST_SEEN w1)).
  { simpl.
    replace (timestamp_or (Worker.frame_event n b true cam) utcnow_iso2)
      with utcnow_iso2 by reflexivity.
    rewrite (should_log_unfold _ _ _ _ _ _ _
               (now_timestamp_text fromisoformat clock2 _ _ Hne2 Ht2)).
    rewrite HLS, lookup_insert_eq. now rewrite Hlt. }
  rewrite (add_event_skipped _ _ _ _ _ _ Hlog), HE, length_app. simpl.
  do 3 f_equal. lia.
Qed.

(** Alice matched at noon; the simulator posts her two seconds later. *)
Lemma matched_frame_is_logged_once_witness :
  exists w1 n b,
    add_event Iso.fromisoformat "2024-03-01T12:00:02" 0
      (Worker.frame_event n b true "cam1") w1
    = (w1, Return (Event_status "skipped_duplicate"
                     (S (length (EVENTS Toy.two_enrolled))))).
Proof.
  assert (E1 : match_ Iso.fromisoformat Toy.image Toy.imdecode Toy.face_app_get
                 "2024-03-01T12:00:00" 0 Toy.portrait_a 0.5 "cam1"
                 Toy.two_enrolled = Toy.tie_reply1)
    by (vm_compute; reflexivity).
  unfold Toy.tie_reply1 in E1.
  do 3 eexists.
  refine (matched_frame_is_logged_once Iso.fromisoformat Toy.image
            Toy.imdecode Toy.face_app_get "2024-03-01T12:00:00"
            "2024-03-01T12:00:02" 0 0 Toy.portrait_a 0.5 "cam1"
            Toy.two_enrolled _ _ _ _ 1709294400 1709294402
            E1 _ _ _ _ _).
  - discriminate.
  - reflexivity.
  - discriminate.
  - reflexivity.
  - reflexivity.
Defined.

(** X10. Frames the service did not match are posted under the one person
    "unknown", whoever came closest: once such an event was logged for a
    camera, the event posted for any other unmatched frame of that camera
    at a clock text whose timestamp is less than the window after the
    first one's (the binary64 difference of the two is below 30) is
    skipped. *)
Theorem unknown_frames_share_one_key
    (fromisoformat : string -> option float)
    (utcnow_iso1 utcnow_iso2 : string) (clock1 clock2 : float)
    (name1 name2 : string) (score1 score2 : float) (cam : string)
    (w w1 : world) (count : nat) (t1 t2 : float) :
  add_event fromisoformat utcnow_iso1 clock1
    (Worker.frame_event name1 score1 false cam) w
  = (w1, Return (Event_status "logged" count)) ->
  utcnow_iso1 <> "" -> fromisoformat utcnow_iso1 = Some t1 ->
  utcnow_iso2 <> "" -> fromisoformat utcnow_iso2 = Some t2 ->
  (t2 - t1 <? float_of_int DEDUPE_WINDOW_SEC)%float = true ->
  (exists row, EVENTS w1 = EVENTS w ++ [row] /\ person row = "unknown" /\
               camera row = cam /\ timestamp row = utcnow_iso1) /\
  add_event fromisoformat utcnow_iso2 clock2
    (Worker.frame_event name2 score2 false cam) w1
  = (w1, Return (Event_status "skipped_duplicate" count)).
Proof.
  intros H Hne1 Ht1 Hne2 Ht2 Hlt.
  pose proof (now_timestamp_text fromisoformat clock1 _ _ Hne1 Ht1) as Hnow1.
  pose proof (now_timestamp_text fromisoformat clock2 _ _ Hne2 Ht2) as Hnow2.
  destruct (_should_log fromisoformat clock1
              (ev_person (Worker.frame_event name1 score1 false cam))
              (ev_camera (Worker.frame_event name1 score1 false cam))
              (Some (timestamp_or (Worker.frame_event name1 score1 false cam)
                       utcnow_iso1)) (LAST_SEEN w))
    as [[[|] LS']|e] eqn:Hlog.
  - rewrite (add_event_logged _ _ _ _ _ _ Hlog) in H.
    injection H as <- <-.
    destruct (should_log_inv _ _ _ _ _ _ _ _ Hlog)
      as (t & Hnow & [([=] & _) | (_ & -> & _)]).
    change (timestamp_or (Worker.frame_event name1 score1 false cam)
              utcnow_iso1) with utcnow_iso1 in Hnow.
    rewrite Hnow1 in Hnow. injection Hnow as <-.
    split; [eexists; repeat split|].
    assert (Hlog2 : _should_log fromisoformat clock2
                      (ev_person (Worker.frame_event name2 score2 false cam))
                      (ev_camera (Worker.frame_event name2 score2 false cam))
                      (Some (timestamp_or
                               (Worker.frame_event name2 score2 false cam)
                               utcnow_iso2))
                      (LAST_SEEN
                         (append_event
                            (row_of (Worker.frame_event name1 score1 false cam)
                               utcnow_iso1)
                            (<[("unknown", cam) := t1]> (LAST_SEEN w)) w))
                    = Return (false,
                              <[("unknown", cam) := t1]> (LAST_SEEN w))).
    { change (timestamp_or (Worker.frame_event name2 score2 false cam)
                utcnow_iso2) with utcnow_iso2.
      rewrite (should_log_unfold _ _ _ _ _ _ _ Hnow2). simpl.
      rewrite lookup_insert_eq. now rewrite Hlt. }
    exact (add_event_skipped _ _ _ _ _ _ Hlog2).
  - rewrite (add_event_skipped _ _ _ _ _ _ Hlog) in H. discriminate.
  - rewrite (add_event_raises _ _ _ _ _ _ Hlog) in H. discriminate.
Qed.

(** Two strangers in front of camera 1, three seconds apart. *)
Lemma unknown_frames_share_one_key_witness :
  exists w1,
    add_event Iso.fromisoformat "2024-03-01T12:00:03" 0
      (Worker.frame_event "bob" 0.125 false "cam1") w1
    = (w1, Return (Event_status "skipped_duplicate" 1)).
Proof.
  eexists.
  refine (proj2
    (unknown_frames_share_one_key Iso.fromisoformat "2024-03-01T12:00:00"
       "2024-03-01T12:00:03" 0 0 "alice" "bob" 0.25 0.125 "cam1" Toy.fresh _ 1
       1709294400 1709294403 _ _ _ _ _ _)).
  - vm_compute. reflexivity.
  - discriminate.
  - reflexivity.
  - discriminate.
  - reflexivity.
  - reflexivity.
Defined.

(** ** The reply of a match *)

Lemma score_all_keys (q : Np.array) (gal : gallery) :
  forall scores,
    score_all gal q = Return scores -> dict_keys scores = dict_keys gal.
Proof.
  induction gal as [|[name vec] gal IH]; intros scores; simpl.
  - now intros [= <-].
  - destruct (cosine (Np.astype32 vec) q) as [sc|]; simpl; [|discriminate].
    destruct (score_all gal q) as [ss|]; simpl; [|discriminate].
    intros [= <-]. unfold dict_keys in *. simpl. f_equal. now apply IH.
Qed.

Lemma round_scores_keys (scores : dict float) :
  dict_keys (round_scores scores) = dict_keys scores.
Proof.
  unfold dict_keys, round_scores. induction scores as [|[k v] scores IH];
    simpl; [reflexivity | now rewrite IH].
Qed.

Lemma round_scores_elem (scores : dict float) k v :
  (k, v) ∈ scores -> (k, PyFloat.py_round3 v) ∈ round_scores scores.
Proof.
  intros H. unfold round_scores.
  change (k, PyFloat.py_round3 v)
    with ((fun '(k, v) => (k, PyFloat.py_round3 v)) (k, v)).
  apply list_elem_of_fmap. exists (k, v). split; [reflexivity | assumption].
Qed.

(** with distinct keys, an item is what [get] returns for its key *)
Lemma dict_get_elem {V} (d : dict V) k v :
  NoDup (dict_keys d) -> (k, v) ∈ d -> dict_get d k = Some v.
Proof.
  unfold dict_keys. induction d as [|[k' v'] d IH]; simpl; intros Hnd Hin.
  - now apply elem_of_nil in Hin.
  - apply NoDup_cons in Hnd as [Hk' Hnd].
    apply elem_of_cons in Hin as [[= <- <-] | Hin].
    + now rewrite String.eqb_refl.
    + destruct (String.eqb k' k) eqn:E; [|now apply IH].
      apply String.eqb_eq in E. subst k'. exfalso. apply Hk'.
      change k with (fst (k, v)). apply list_elem_of_fmap.
      exists (k, v). split; [reflexivity | assumption].
Qed.

(** [max] returns one of the items *)
Lemma py_max_elem {A K} (gt : K -> K -> bool) (key : A -> K) xs x :
  py_max gt key xs = Return x -> x ∈ xs.
Proof.
  destruct xs as [|x0 xs]; simpl; [discriminate|]. intros [= <-].
  revert x0. induction xs as [|y xs IH]; intros x0; simpl.
  - apply list_elem_of_here.
  - destruct (gt (key y) (key x0)).
    + apply list_elem_of_further, IH.
    + specialize (IH x0). apply elem_of_cons in IH as [-> | IH].
      * apply list_elem_of_here.
      * now do 2 apply list_elem_of_further.
Qed.

(** X11. A match reply is consistent with the gallery: the score map lists
    exactly the enrolled names, in gallery order; the best name is one of
    them and its reported score is the one the map shows for it; and an
    event is logged only for a match. *)
Theorem match_reply_is_consistent
    (fromisoformat : string -> option float) (image : Type)
    (imdecode : list Byte.byte -> option image)
    (face_app_get : image -> list face)
    (utcnow_iso : string) (clock : float) (file : list Byte.byte) (thr : float)
    (cam : string) (w w' : world)
    (s : dict float) (n : string) (b t : float) (m l : bool) :
  match_ fromisoformat image imdecode face_app_get utcnow_iso clock file thr
    cam w = (w', Return (Matched s n b m t l)) ->
  exists gal,
    read_gallery (gallery_json w) = Return gal /\
    dict_keys s = dict_keys gal /\
    n ∈ dict_keys gal /\
    (n, b) ∈ s /\
    (NoDup (dict_keys gal) -> dict_get s n = Some b) /\
    t = thr /\
    (l = true -> m = true).
Proof.
  intros H.
  destruct (match_Matched _ _ _ _ _ _ _ _ _ _ _ _ _ _ _ _ _ H)
    as (gal & q & scores & bs & Hgal & _ & _ & Hs & Hmax & -> & -> & _ & ->
        & Hcase).
  pose proof (score_all_keys q gal scores Hs) as Hkeys.
  pose proof (py_max_elem _ _ _ _ Hmax) as Hin.
  exists gal. split; [assumption|].
  split; [now rewrite round_scores_keys|].
  split.
  { rewrite <- Hkeys. unfold dict_keys. change n with (fst (n, bs)).
    apply list_elem_of_fmap. exists (n, bs). split; [reflexivity | assumption]. }
  split; [now apply round_scores_elem|].
  split.
  { intros Hnd. apply dict_get_elem.
    - now rewrite round_scores_keys, Hkeys.
    - now apply round_scores_elem. }
  split; [reflexivity|].
  destruct Hcase as [(_ & -> & _) | (-> & _)]; [discriminate | reflexivity].
Qed.

(** The reply to the first of the two tied queries. *)
Lemma match_reply_is_consistent_witness :
  exists (gal : gallery) (s : dict float) (n : string),
    read_gallery (gallery_json Toy.two_enrolled) = Return gal /\
    dict_keys s = dict_keys gal /\ n ∈ dict_keys gal.
Proof.
  assert (E1 : match_ Iso.fromisoformat Toy.image Toy.imdecode Toy.face_app_get
                 "2024-03-01T12:00:00" 0 Toy.portrait_a 0.5 "cam1"
                 Toy.two_enrolled = Toy.tie_reply1)
    by (vm_compute; reflexivity).
  unfold Toy.tie_reply1 in E1.
  destruct (match_reply_is_consistent _ _ _ _ _ _ _ _ _ _ _ _ _ _ _ _ _ E1)
    as (gal & Hgal & Hkeys & Hn & _).
  exists gal. eauto.
Defined.

(** ** Thresholds that are not numbers *)

Lemma is_nan_Prim2SF (x : float) :
  PrimFloat.is_nan x = true -> Prim2SF x = S754_nan.
Proof.
  unfold PrimFloat.is_nan. rewrite FloatAxioms.eqb_spec. unfold SFeqb.
  destruct (Prim2SF x) as [s|s| |s m e]; trivial.
  - discriminate.
  - now destruct s.
  - rewrite SFcompare_refl_finite. discriminate.
Qed.

Lemma float_ge_nan (x thr : float) :
  PrimFloat.is_nan thr = true \/ PrimFloat.is_nan x = true ->
  float_ge x thr = false.
Proof.
  unfold float_ge. rewrite leb_spec. unfold SFleb.
  intros [H | H]; apply is_nan_Prim2SF in H; rewrite H.
  - reflexivity.
  - now destruct (Prim2SF thr).
Qed.

(** X12. With a threshold that is not a number, nothing matches: every
    match reply says [match = false] and [logged = false], and the request
    changes nothing. *)
Theorem nan_threshold_never_matches
    (fromisoformat : string -> option float) (image : Type)
    (imdecode : list Byte.byte -> option image)
    (face_app_get : image -> list face)
    (utcnow_iso : string) (clock : float) (file : list Byte.byte) (thr : float)
    (cam : string) (w w' : world)
    (s : dict float) (n : string) (b t : float) (m l : bool) :
  match_ fromisoformat image imdecode face_app_get utcnow_iso clock file thr
    cam w = (w', Return (Matched s n b m t l)) ->
  PrimFloat.is_nan thr = true ->
  m = false /\ l = false /\ w' = w.
Proof.
  intros H Hnan.
  destruct (match_Matched _ _ _ _ _ _ _ _ _ _ _ _ _ _ _ _ _ H)
    as (gal & q & scores & bs & _ & _ & _ & _ & _ & _ & _ & Hm & _ & Hcase).
  rewrite (float_ge_nan bs thr (or_introl Hnan)) in Hm. subst m.
  destruct Hcase as [(_ & -> & ->) | ([=] & _)]. repeat split.
Qed.

(** Alice's own portrait, matched at the threshold nan. *)
Lemma nan_threshold_never_matches_witness :
  exists w' s n b m t l,
    match_ Iso.fromisoformat Toy.image Toy.imdecode Toy.face_app_get
      "2024-03-01T12:00:00" 0 Toy.portrait_a nan "cam1" Toy.alice_enrolled
    = (w', Return (Matched s n b m t l)) /\
    (m = false /\ l = false /\ w' = Toy.alice_enrolled).
Proof.
  assert (E : match_ Iso.fromisoformat Toy.image Toy.imdecode Toy.face_app_get
                "2024-03-01T12:00:00" 0 Toy.portrait_a nan "cam1"
                Toy.alice_enrolled = Toy.nan_reply)
    by (vm_compute; reflexivity).
  unfold Toy.nan_reply in E.
  do 7 eexists. split; [exact E|].
  exact (nan_threshold_never_matches _ _ _ _ _ _ _ _ _ _ _ _ _ _ _ _ _ E
           eq_refl).
Defined.

(** ** Embeddings of different sizes *)

Lemma cosine_shapes_agree (a b : Np.array) :
  length a = length b -> exists sc, cosine a b = Return sc.
Proof.
  intros H. unfold cosine, Np.dot, Np.div_scalar, Np.astype32.
  rewrite !length_map, H, Nat.eqb_refl. eauto.
Qed.

Lemma cosine_shapes_differ (a b : Np.array) :
  length a <> length b ->
  cosine a b = Raise (ValueError "shapes not aligned").
Proof.
  intros H. unfold cosine, Np.dot, Np.div_scalar, Np.astype32.
  rewrite !length_map. apply Nat.eqb_neq in H. now rewrite H.
Qed.

Lemma score_all_shapes (q : Np.array) (gal : gallery) :
  (Forall (fun entry => length (snd entry) = length q) gal ->
   exists scores, score_all gal q = Return scores) /\
  (Exists (fun entry => length (snd entry) <> length q) gal ->
   score_all gal q = Raise (ValueError "shapes not aligned")).
Proof.
  induction gal as [|[name vec] gal [IHok IHbad]]; split; simpl.
  - eauto.
  - intros H. inversion H.
  - intros H. apply Forall_cons in H as [Hvec Hgal]. simpl in Hvec.
    destruct (cosine_shapes_agree (Np.astype32 vec) q) as [sc ->].
    { unfold Np.astype32. now rewrite length_map. }
    destruct (IHok Hgal) as [ss ->]. simpl. eauto.
  - intros H.
    destruct (decide (length vec = length q)) as [Heq | Hne].
    + destruct (cosine_shapes_agree (Np.astype32 vec) q) as [sc ->].
      { unfold Np.astype32. now rewrite length_map. }
      apply Exists_cons in H as [Hbad | Hgal]; [now simpl in Hbad|].
      simpl. now rewrite (IHbad Hgal).
    + rewrite cosine_shapes_differ; [reflexivity|].
      unfold Np.astype32. now rewrite length_map.
Qed.

(** X13. The matcher does not check embedding sizes itself: when a gallery
    entry's vector is not as long as the query embedding, the match
    request is not answered with a 400 reply but ends with the [ValueError]
    of [np.dot], and nothing changes; when all entries have the query's
    length, every entry is scored. *)
Theorem mismatched_embedding_raises
    (fromisoformat : string -> option float) (image : Type)
    (imdecode : list Byte.byte -> option image)
    (face_app_get : image -> list face)
    (utcnow_iso : string) (clock : float) (file : list Byte.byte) (thr : float)
    (cam : string) (w : world) (gal : gallery) (q : Np.array) :
  read_gallery (gallery_json w) = Return gal ->
  embed_image_bytes image imdecode face_app_get file = Return q ->
  (Exists (fun entry => length (snd entry) <> length q) gal ->
   match_ fromisoformat image imdecode face_app_get utcnow_iso clock file thr
     cam w = (w, Raise (ValueError "shapes not aligned"))) /\
  (Forall (fun entry => length (snd entry) = length q) gal ->
   exists scores,
     score_all gal q = Return scores /\ dict_keys scores = dict_keys gal).
Proof.
  intros Hgal Hq. split.
  - intros Hbad. unfold match_. rewrite Hgal.
    destruct gal as [|entry rest]; [inversion Hbad|].
    now rewrite Hq, (proj2 (score_all_shapes q (entry :: rest)) Hbad).
  - intros Hok. destruct (proj1 (score_all_shapes q gal) Hok) as [scores Hs].
    exists scores. split; [assumption | now apply score_all_keys with q].
Qed.

(** A gallery whose entry has three numbers, and a query of two. *)
Lemma mismatched_embedding_raises_witness :
  match_ Iso.fromisoformat Toy.image Toy.imdecode Toy.face_app_get
    "2024-03-01T12:00:00" 0 Toy.portrait_a 0.5 "cam1"
    (startup NoFile (Whole [("alice", [1; 0; 0]%float)]))
  = (startup NoFile (Whole [("alice", [1; 0; 0]%float)]),
     Raise (ValueError "shapes not aligned")).
Proof.
  refine (proj1
    (mismatched_embedding_raises Iso.fromisoformat Toy.image Toy.imdecode
       Toy.face_app_get "2024-03-01T12:00:00" 0 Toy.portrait_a 0.5 "cam1"
       (startup NoFile (Whole [("alice", [1; 0; 0]%float)]))
       [("alice", [1; 0; 0]%float)] [3; 1]%float _ _) _).
  - reflexivity.
  - vm_compute. reflexivity.
  - constructor. simpl. discriminate.
Defined.

(** ** The face that is embedded *)

Section LargestFace.

Context {A : Type} (key : A -> Z).

(** on integers, [max] returns the first item with the greatest key *)
Lemma max_from_greatest (xs : list A) :
  forall best,
  exists pre post,
    best :: xs = pre ++ max_from int_gt key best xs :: post /\
    Forall (fun y => key y < key (max_from int_gt key best xs)) pre /\
    Forall (fun y => key y <= key (max_from int_gt key best xs)) post /\
    key best <= key (max_from int_gt key best xs).
Proof.
  induction xs as [|x xs IH]; intros best; simpl.
  - exists [], []. repeat split; auto. lia.
  - destruct (int_gt (key x) (key best)) eqn:Hgt; unfold int_gt in Hgt;
      [apply Z.ltb_lt in Hgt | apply Z.ltb_ge in Hgt].
    + destruct (IH x) as (pre & post & Heq & Hpre & Hpost & Hle).
      exists (best :: pre), post. repeat split; auto.
      * simpl. congruence.
      * constructor; [lia | assumption].
      * lia.
    + destruct (IH best) as (pre & post & Heq & Hpre & Hpost & Hle).
      destruct pre as [|p pre]; simpl in Heq.
      * injection Heq as Hb Hxs.
        exists [], (x :: post). repeat split; auto.
        -- simpl. congruence.
        -- constructor; [lia | assumption].
      * injection Heq as <- Hxs.
        exists (best :: x :: pre), post. repeat split; auto.
        -- simpl. congruence.
        -- inversion Hpre; subst.
           constructor; [assumption|]. constructor; [lia | assumption].
Qed.

End LargestFace.

(** X14. Of the faces detected in an upload, the one with the largest box
    is embedded, and of several largest ones the first detected: every face
    detected before it has a strictly smaller box area and no face after it
    a larger one.  Bytes that do not decode and images without a face are
    the only uploads that fail. *)
Theorem largest_face_is_embedded
    (image : Type) (imdecode : list Byte.byte -> option image)
    (face_app_get : image -> list face)
    (b : list Byte.byte) (img : image) (f0 : face) (fs : list face) :
  imdecode b = Some img ->
  face_app_get img = f0 :: fs ->
  exists pre f post,
    f0 :: fs = pre ++ f :: post /\
    embed_image_bytes image imdecode face_app_get b
    = Return (Np.astype32 (embedding f)) /\
    Forall (fun g => area g < area f) pre /\
    Forall (fun g => area g <= area f) post /\
    0 <= area f.
Proof.
  intros Himg Hfaces.
  destruct (max_from_greatest area fs f0) as (pre & post & Heq & Hpre & Hpost & _).
  exists pre, (max_from int_gt area f0 fs), post.
  split; [exact Heq|]. split.
  - unfold embed_image_bytes. now rewrite Himg, Hfaces.
  - repeat split; trivial.
    unfold area. destruct (bbox _) as [[[x1 y1] x2] y2]. nia.
Qed.

(** An upload with four faces, the two largest of the same size. *)
Lemma largest_face_is_embedded_witness :
  exists pre f post,
    Toy.face_app_get [Byte.x01; Byte.x04; Byte.x04; Byte.x02]
    = pre ++ f :: post /\
    embed_image_bytes Toy.image Toy.imdecode Toy.face_app_get
      [Byte.x01; Byte.x04; Byte.x04; Byte.x02]
    = Return (Np.astype32 (embedding f)) /\
    Forall (fun g => area g < area f) pre /\
    Forall (fun g => area g <= area f) post /\
    0 <= area f.
Proof.
  exact (largest_face_is_embedded Toy.image Toy.imdecode Toy.face_app_get
           [Byte.x01; Byte.x04; Byte.x04; Byte.x02]
           [Byte.x01; Byte.x04; Byte.x04; Byte.x02]
           (Toy.face_of Byte.x01)
           [Toy.face_of Byte.x04; Toy.face_of Byte.x04; Toy.face_of Byte.x02]
           eq_refl eq_refl).
Defined.

(** ** The gallery over time *)

Section GalleryFacts.

Context {V : Type}.

(** assigning a key keeps the keys, or adds the new key at the end *)
Lemma dict_set_keys (d : dict V) k v :
  ((k ∈ dict_keys d) /\ dict_keys (dict_set d k v) = dict_keys d) \/
  ((k ∉ dict_keys d) /\ dict_keys (dict_set d k v) = dict_keys d ++ [k]).
Proof.
  unfold dict_keys. induction d as [|[k' v'] d IH]; simpl.
  - right. split; [apply not_elem_of_nil | reflexivity].
  - destruct (String.eqb k' k) eqn:E; simpl.
    + apply String.eqb_eq in E. subst k'. left.
      split; [apply list_elem_of_here | reflexivity].
    + apply String.eqb_neq in E.
      destruct IH as [[Hin Heq] | [Hnin Heq]]; rewrite Heq.
      * left. split; [now apply list_elem_of_further | reflexivity].
      * right. split; [|reflexivity].
        intros Hin. apply elem_of_cons in Hin as [-> | Hin]; auto.
Qed.

Lemma dict_set_keys_prefix (d : dict V) k v :
  dict_keys d `prefix_of` dict_keys (dict_set d k v) /\
  k ∈ dict_keys (dict_set d k v) /\
  (NoDup (dict_keys d) -> NoDup (dict_keys (dict_set d k v))).
Proof.
  destruct (dict_set_keys d k v) as [[Hin ->] | [Hnin ->]].
  - repeat split; auto.
  - split; [now exists [k]|]. split.
    + apply elem_of_app. right. apply list_elem_of_here.
    + intros Hnd. apply NoDup_app. repeat split; trivial.
      * intros x Hx Hxk. apply list_elem_of_singleton in Hxk. now subst.
      * apply NoDup_singleton.
Qed.

End GalleryFacts.

Section GalleryRuns.

Variable fromisoformat : string -> option float.
Variable image : Type.
Variable imdecode : list Byte.byte -> option image.
Variable face_app_get : image -> list face.

(** an [Enrolled] reply, taken apart *)
Lemma enroll_Enrolled name files w w' e i people :
  enroll image imdecode face_app_get name files w
  = (w', Return (Enrolled e i people)) ->
  exists gal embs,
    name <> "" /\
    read_gallery (gallery_json w) = Return gal /\
    embed_files image imdecode face_app_get files [] = Return embs /\
    e = name /\ i = length embs /\
    people = dict_keys (dict_set gal name (Np.astype32 (Np.mean_axis0 embs))) /\
    gallery_json w'
    = Whole (dict_set gal name (Np.astype32 (Np.mean_axis0 embs))) /\
    EVENTS w' = EVENTS w /\ LAST_SEEN w' = LAST_SEEN w /\
    events_json w' = events_json w.
Proof.
  unfold enroll.
  destruct (negb (truthy (Some name))) eqn:Hn; [discriminate|].
  destruct (read_gallery (gallery_json w)) as [gal|]; [|discriminate].
  destruct (embed_files image imdecode face_app_get files []) as [embs|];
    [|discriminate].
  destruct embs as [|a rest]; [discriminate|].
  destruct (Np.stack (a :: rest)) as [m|] eqn:Hstack; [|discriminate].
  intros [= <- <- <- <-].
  assert (m = a :: rest) as ->.
  { unfold Np.stack in Hstack.
    destruct (forallb _ (a :: rest)); now inversion Hstack. }
  exists gal, (a :: rest). repeat split; trivial.
  intros ->. discriminate.
Qed.

(** only an enrollment writes the gallery file, and it writes the gallery
    it read with the one name assigned *)
Lemma serve_gallery_step utcnow_iso clock r w :
  let w' := fst (serve fromisoformat image imdecode face_app_get
                   utcnow_iso clock r w) in
  gallery_json w' = gallery_json w \/
  exists gal name avg,
    read_gallery (gallery_json w) = Return gal /\
    gallery_json w' = Whole (dict_set gal name avg).
Proof.
  destruct r as [|name files|upload thr cam| |ev| |]; simpl; auto.
  - destruct (enroll image imdecode face_app_get name files w) as [w' res]
      eqn:E.
    destruct res as [[]|]; simpl;
      try (left; unfold enroll in E; repeat case_match; simplify_eq;
           reflexivity).
    destruct (enroll_Enrolled _ _ _ _ _ _ _ E)
      as (gal & embs & _ & Hgal & _ & _ & _ & _ & Hfile & _).
    right. eauto.
  - unfold match_. repeat case_match; simpl; auto.
  - unfold add_event. repeat case_match; simpl; auto.
Qed.

End GalleryRuns.

(** X15. Nobody is ever removed from the gallery, and the order of the
    names is stable: starting from a readable gallery, after any run of
    requests the gallery is readable and its list of names extends the
    earlier list (the names already enrolled keep their places, new names
    are added at the end); distinct names stay distinct. *)
Theorem gallery_names_only_grow
    (fromisoformat : string -> option float) (image : Type)
    (imdecode : list Byte.byte -> option image)
    (face_app_get : image -> list face)
    (rs : list (string * float * request)) (w : world) (gal : gallery) :
  read_gallery (gallery_json w) = Return gal ->
  exists gal',
    read_gallery
      (gallery_json (serve_all fromisoformat image imdecode face_app_get rs w))
    = Return gal' /\
    dict_keys gal `prefix_of` dict_keys gal' /\
    (NoDup (dict_keys gal) -> NoDup (dict_keys gal')).
Proof.
  revert w gal. induction rs as [|[[utcnow_iso clock] r] rs IH];
    intros w gal Hgal; simpl.
  - exists gal. repeat split; auto.
  - destruct (serve_gallery_step fromisoformat image imdecode face_app_get
                utcnow_iso clock r w)
      as [Hsame | (gal0 & name & avg & Hgal0 & Hfile)].
    + apply IH. now rewrite Hsame.
    + rewrite Hgal in Hgal0. injection Hgal0 as <-.
      destruct (IH (fst (serve fromisoformat image imdecode face_app_get
                           utcnow_iso clock r w))
                  (dict_set gal name avg))
        as (gal' & Hgal' & Hpre & Hnd).
      { now rewrite Hfile. }
      destruct (dict_set_keys_prefix gal name avg) as (Hpre0 & _ & Hnd0).
      exists gal'. split; [assumption|]. split.
      * now transitivity (dict_keys (dict_set gal name avg)).
      * auto.
Qed.

(** Alice enrolled; then Bob is enrolled and Alice enrolled again. *)
Lemma gallery_names_only_grow_witness :
  exists gal',
    read_gallery
      (gallery_json
         (serve_all Iso.fromisoformat Toy.image Toy.imdecode Toy.face_app_get
            [("2024-03-01T12:00:00", 0%float, POST_enroll "bob" [Toy.portrait_b]);
             ("2024-03-01T12:00:09", 0%float, POST_enroll "alice" [Toy.portrait_b])]
            Toy.alice_enrolled))
    = Return gal' /\
    dict_keys [("alice", [3; 1]%float)] `prefix_of` dict_keys gal' /\
    (NoDup (dict_keys [("alice", [3; 1]%float)]) -> NoDup (dict_keys gal')).
Proof.
  apply (gallery_names_only_grow Iso.fromisoformat Toy.image Toy.imdecode
           Toy.face_app_get _ Toy.alice_enrolled [("alice", [3; 1]%float)]).
  reflexivity.
Defined.

(** X16. A successful enrollment reports the name it was given, as many
    images as were uploaded (an upload that fails extraction ends the
    request), and the gallery's names after the enrollment: the names
    before it, with the new name at the end unless it was enrolled before.
    The events and the debounce cache are not touched. *)
Theorem enroll_reply_lists_the_gallery
    (image : Type) (imdecode : list Byte.byte -> option image)
    (face_app_get : image -> list face)
    (name : string) (files : list (list Byte.byte)) (w w' : world)
    (e : string) (i : nat) (people : list string) :
  enroll image imdecode face_app_get name files w
  = (w', Return (Enrolled e i people)) ->
  e = name /\ i = length files /\ (0 < i)%nat /\
  (name ∈ people) /\
  (exists gal gal',
     read_gallery (gallery_json w) = Return gal /\
     read_gallery (gallery_json w') = Return gal' /\
     people = dict_keys gal' /\
     (((name ∈ dict_keys gal) /\ people = dict_keys gal) \/
      ((name ∉ dict_keys gal) /\ people = dict_keys gal ++ [name]))) /\
  EVENTS w' = EVENTS w /\ LAST_SEEN w' = LAST_SEEN w /\
  events_json w' = events_json w.
Proof.
  intros H.
  destruct (enroll_Enrolled _ _ _ _ _ _ _ _ _ _ H)
    as (gal & embs & Hname & Hgal & Hembs & -> & -> & -> & Hfile & HE & HL & HF).
  destruct (embed_files_inv _ _ _ _ _ _ Hembs) as (embs' & Heq & Hall).
  simpl in Heq. subst embs'. apply Forall2_length in Hall.
  split; [reflexivity|]. split; [now symmetry|]. split.
  { unfold enroll in H. apply String.eqb_neq in Hname. simpl in H.
    rewrite Hname, Hgal, Hembs in H. simpl in H.
    destruct embs; [discriminate | simpl; lia]. }
  split; [apply dict_set_keys_prefix|]. split; [|auto].
  exists gal, (dict_set gal name (Np.astype32 (Np.mean_axis0 embs))).
  rewrite Hfile. repeat split; trivial.
  destruct (dict_set_keys gal name (Np.astype32 (Np.mean_axis0 embs)))
    as [[Hin Heq] | [Hnin Heq]]; rewrite Heq; auto.
Qed.

(** Bob enrolled from two portraits after Alice. *)
Lemma enroll_reply_lists_the_gallery_witness :
  exists w' e i people,
    enroll Toy.image Toy.imdecode Toy.face_app_get "bob"
      [Toy.portrait_a; Toy.portrait_b] Toy.alice_enrolled
    = (w', Return (Enrolled e i people)) /\
    e = "bob" /\ i = 2%nat /\ ("bob" ∈ people).
Proof.
  assert (E : enroll Toy.image Toy.imdecode Toy.face_app_get "bob"
                [Toy.portrait_a; Toy.portrait_b] Toy.alice_enrolled
              = Toy.bob_reply)
    by (vm_compute; reflexivity).
  unfold Toy.bob_reply in E.
  destruct (enroll_reply_lists_the_gallery _ _ _ _ _ _ _ _ _ _ E)
    as (He & Hi & _ & Hin & _).
  do 4 eexists. split; [exact E|]. auto.
Defined.

(** X17. A gallery file that does not parse blocks enrolling and matching
    for good: every enrollment with a name and every match request ends
    with the decoder's error and changes nothing, so after any run of
    requests the file is still as it was.  (An events file that does not
    parse is read as no events.) *)
Theorem unreadable_gallery_blocks_the_service
    (fromisoformat : string -> option float) (image : Type)
    (imdecode : list Byte.byte -> option image)
    (face_app_get : image -> list face) (w : world) :
  gallery_json w = Partial ->
  (forall name files,
     name <> "" ->
     enroll image imdecode face_app_get name files w
     = (w, Raise JSONDecodeError)) /\
  (forall utcnow_iso clock file thr cam,
     match_ fromisoformat image imdecode face_app_get utcnow_iso clock file
       thr cam w = (w, Raise JSONDecodeError)) /\
  (forall rs,
     gallery_json (serve_all fromisoformat image imdecode face_app_get rs w)
     = Partial) /\
  EVENTS (startup Partial (gallery_json w)) = [].
Proof.
  intros Hfile. split; [|split; [|split]].
  - intros name files Hname. unfold enroll.
    apply String.eqb_neq in Hname. simpl. now rewrite Hname, Hfile.
  - intros. unfold match_. now rewrite Hfile.
  - intros rs. revert w Hfile.
    induction rs as [|[[utcnow_iso clock] r] rs IH]; intros w Hfile; simpl.
    + exact Hfile.
    + apply IH.
      destruct (serve_gallery_step fromisoformat image imdecode face_app_get
                  utcnow_iso clock r w)
        as [-> | (gal0 & name & avg & Hgal0 & _)]; [exact Hfile|].
      rewrite Hfile in Hgal0. discriminate.
  - reflexivity.
Qed.

(** A service whose gallery file was cut short. *)
Lemma unreadable_gallery_blocks_the_service_witness :
  enroll Toy.image Toy.imdecode Toy.face_app_get "alice" [Toy.portrait_a]
    (startup NoFile Partial)
  = (startup NoFile Partial, Raise JSONDecodeError).
Proof.
  refine (proj1
    (unreadable_gallery_blocks_the_service Iso.fromisoformat Toy.image
       Toy.imdecode Toy.face_app_get (startup NoFile Partial) eq_refl)
    "alice" [Toy.portrait_a] _).
  discriminate.
Defined.

(** ** Listing and exporting the events *)

(** X18. A logged event is the first of [GET /events] and the last row of
    [GET /events/csv]: the list view shows the events newest first, the CSV
    export has them in the order they were stored, and the count in the
    reply to the post is the number of events listed.  Neither view changes
    the state. *)
Theorem newest_event_is_listed_first
    (fromisoformat : string -> option float) (utcnow_iso : string) (clock : float)
    (ev : Event) (w w' : world) (count : nat) :
  add_event fromisoformat utcnow_iso clock ev w
  = (w', Return (Event_status "logged" count)) ->
  list_events w'
  = (w', Return (Event_list (row_of ev utcnow_iso :: rev (EVENTS w)))) /\
  (exists old_rows,
     events_csv w
     = (w, Return (Events_csv ["timestamp"; "camera"; "person"; "score"]
                     old_rows)) /\
     events_csv w'
     = (w', Return (Events_csv ["timestamp"; "camera"; "person"; "score"]
                      (old_rows
                       ++ [([timestamp_or ev utcnow_iso; ev_camera ev;
                             ev_person ev],
                            PyFloat.py_round3 (ev_score ev))])))) /\
  count = length (row_of ev utcnow_iso :: rev (EVENTS w)).
Proof.
  intros H.
  destruct (_should_log fromisoformat clock (ev_person ev) (ev_camera ev)
              (Some (timestamp_or ev utcnow_iso)) (LAST_SEEN w))
    as [[[|] LS']|e] eqn:Hlog.
  - rewrite (add_event_logged _ _ _ _ _ _ Hlog) in H. injection H as <- <-.
    split; [|split].
    + unfold list_events. simpl. now rewrite rev_app_distr.
    + eexists. split; [reflexivity|]. unfold events_csv. simpl.
      now rewrite map_app.
    + simpl. rewrite length_app, length_rev. simpl. lia.
  - rewrite (add_event_skipped _ _ _ _ _ _ Hlog) in H. discriminate.
  - rewrite (add_event_raises _ _ _ _ _ _ Hlog) in H. discriminate.
Qed.

(** An unknown face posted after Bob's event. *)
Lemma newest_event_is_listed_first_witness :
  exists w',
    list_events w'
    = (w', Return (Event_list
                     (row_of Toy.seen_unknown "2024-03-01T12:01:00"
                      :: rev (EVENTS Toy.one_event)))).
Proof.
  eexists.
  refine (proj1
    (newest_event_is_listed_first Iso.fromisoformat "2024-03-01T12:01:00" 0
       Toy.seen_unknown Toy.one_event _ 2 _)).
  vm_compute. reflexivity.
Defined.

(** ** The command-line matcher and the service *)

Lemma cli_cosine_is_cosine (a b : Np.array) : Cli.cosine a b = cosine a b.
Proof. reflexivity. Qed.

Lemma cli_score_all_is_score_all (q : Np.array) (gal : gallery) :
  Cli.score_all gal q = score_all gal q.
Proof.
  induction gal as [|[name vec] gal IH]; simpl; [reflexivity|].
  now rewrite IH, cli_cosine_is_cosine.
Qed.

(** X19. The command-line matcher and the service agree: run on the
    gallery file the service read, with the same threshold and a query
    image from which it extracts the embedding the service extracted from
    the upload, [match.py] prints the score map, the best name and the
    decision of the service's reply. *)
Theorem cli_agrees_with_the_service
    (fromisoformat : string -> option float) (image : Type)
    (imdecode : list Byte.byte -> option image)
    (face_app_get : image -> list face)
    (cli_image : Type) (imread : string -> option cli_image)
    (app_get : cli_image -> list face)
    (utcnow_iso : string) (clock : float) (file : list Byte.byte) (thr : float)
    (cam : string) (w w' : world) (image_path : string) (q : Np.array)
    (s : dict float) (n : string) (b t : float) (m l : bool) :
  match_ fromisoformat image imdecode face_app_get utcnow_iso clock file thr
    cam w = (w', Return (Matched s n b m t l)) ->
  embed_image_bytes image imdecode face_app_get file = Return q ->
  Cli.embed cli_image imread app_get image_path = Cli.Done q ->
  exists p,
    Cli.main cli_image imread app_get (gallery_json w) image_path thr
    = Cli.Done p /\
    Cli.shown_scores p = s /\ Cli.best p = n /\
    PyFloat.py_round3 (Cli.best_score p) = b /\ Cli.yes p = m.
Proof.
  intros H Hq Hcli.
  destruct (match_Matched _ _ _ _ _ _ _ _ _ _ _ _ _ _ _ _ _ H)
    as (gal & q' & scores & bs & Hgal & Hgne & Hq' & Hs & Hmax & -> & -> & ->
        & _).
  rewrite Hq in Hq'. injection Hq' as <-.
  assert (Hfile : gallery_json w = Whole gal).
  { destruct (gallery_json w); simpl in Hgal; simplify_eq; reflexivity. }
  eexists. unfold Cli.main. rewrite Hfile.
  destruct gal as [|entry rest]; [contradiction|].
  rewrite Hcli, cli_score_all_is_score_all, Hs, Hmax.
  repeat split.
Qed.

(** Alice's portrait, uploaded to the service and read by [match.py] from a
    file with the same content. *)
Lemma cli_agrees_with_the_service_witness :
  exists p,
    Cli.main Toy.image (fun _ => Toy.imdecode Toy.portrait_a) Toy.face_app_get
      (gallery_json Toy.two_enrolled) "samples/entry2.jpg" 0.5
    = Cli.Done p /\
    Cli.best p = "alice" /\ Cli.yes p = true.
Proof.
  assert (E1 : match_ Iso.fromisoformat Toy.image Toy.imdecode Toy.face_app_get
                 "2024-03-01T12:00:00" 0 Toy.portrait_a 0.5 "cam1"
                 Toy.two_enrolled = Toy.tie_reply1)
    by (vm_compute; reflexivity).
  unfold Toy.tie_reply1 in E1.
  destruct (cli_agrees_with_the_service Iso.fromisoformat Toy.image
              Toy.imdecode Toy.face_app_get Toy.image
              (fun _ => Toy.imdecode Toy.portrait_a) Toy.face_app_get
              _ _ _ _ _ _ _ "samples/entry2.jpg" [3; 1]%float _ _ _ _ _ _
              E1 eq_refl eq_refl)
    as (p & Hmain & _ & Hbest & _ & Hyes).
  exists p. auto.
Defined.

(** ** The simulator's local log *)

(** X20. The local CSV log gets its header once, in front: a log that did
    not exist holds, after any number of [log_local] calls, the header
    followed by one row per call in call order; a file that existed is
    only appended to, and never gets a header. *)
Theorem log_header_is_written_once
    (R : Type) (rows : list R) (row : R)
    (csv_file : option (list (Worker.csv_line R))) :
  fold_left Worker.log_local (row :: rows) csv_file
  = Some (match csv_file with
          | None => Worker.Header Worker.fieldnames
                    :: map Worker.Row (row :: rows)
          | Some lines => lines ++ map Worker.Row (row :: rows)
          end).
Proof.
  assert (Hexists : forall rows lines,
             fold_left Worker.log_local rows (Some lines)
             = Some (lines ++ map (@Worker.Row R) rows)).
  { clear. induction rows as [|r rows IH]; intros lines; simpl.
    - now rewrite app_nil_r.
    - unfold Worker.log_local at 2. simpl. rewrite IH.
      now rewrite <- app_assoc. }
  simpl. destruct csv_file as [lines|]; unfold Worker.log_local at 2; simpl.
  - rewrite Hexists. now rewrite <- app_assoc.
  - rewrite Hexists. reflexivity.
Qed.

(** ** Face crops *)

Lemma slice_index_clipped (n i : Z) :
  0 < n ->
  Crop.slice_index n (Z.max 0 i) = Z.min (Z.max 0 i) n /\
  Crop.slice_index n (Z.min n i)
  = (if i <? 0 then Z.max 0 (i + n) else Z.min n i).
Proof.
  intros Hn. unfold Crop.slice_index. split.
  - destruct (Z.ltb_spec (Z.max 0 i) 0); [lia | reflexivity].
  - destruct (Z.ltb_spec (Z.min n i) 0), (Z.ltb_spec i 0); lia.
Qed.

Lemma size_is_zero (rows cols : Z) :
  0 <= rows -> 0 <= cols ->
  (negb (rows * cols * 3 =? 0) = true <-> 0 < rows /\ 0 < cols).
Proof.
  intros Hr Hc. rewrite negb_true_iff, Z.eqb_neq. split.
  - intros H. split; nia.
  - intros [Hr' Hc']. nia.
Qed.

(** X21. The crop the local scripts save for a face never exceeds the
    image, and for a box whose right and lower edges are not negative it is
    the part of the box that lies inside the image, saved exactly when that
    part is not empty.  A box that ends above the image (a negative lower
    edge, less than the image height away) is not skipped: the slice counts
    the negative bound from the bottom, and rows from the top of the image
    are cropped. *)
Theorem crop_lies_inside_the_image (h w : Z) (f : face)
    (x1 y1 x2 y2 : Z) :
  0 < h -> 0 < w -> bbox f = (x1, y1, x2, y2) ->
  let rows := fst (Crop.crop_shape h w f) in
  let cols := snd (Crop.crop_shape h w f) in
  (0 <= rows <= h /\ 0 <= cols <= w) /\
  (0 <= y2 -> rows = Z.max 0 (Z.min h y2 - Z.max 0 y1)) /\
  (0 <= x2 -> cols = Z.max 0 (Z.min w x2 - Z.max 0 x1)) /\
  (0 <= y2 -> 0 <= x2 ->
   (Crop.crop_saved h w f = true <->
    Z.max 0 y1 < Z.min h y2 /\ Z.max 0 x1 < Z.min w x2)) /\
  (y1 <= y2 -> y2 < 0 -> - h < y2 -> rows = h + y2).
Proof.
  intros Hh Hw Hbox rows cols. subst rows cols.
  unfold Crop.crop_saved, Crop.crop_shape. rewrite Hbox. simpl.
  unfold Crop.slice_len.
  destruct (slice_index_clipped h y1 Hh) as [-> _].
  destruct (slice_index_clipped h y2 Hh) as [_ ->].
  destruct (slice_index_clipped w x1 Hw) as [-> _].
  destruct (slice_index_clipped w x2 Hw) as [_ ->].
  split; [|split; [|split; [|split]]].
  - destruct (Z.ltb_spec y2 0), (Z.ltb_spec x2 0); lia.
  - intros Hy. destruct (Z.ltb_spec y2 0); lia.
  - intros Hx. destruct (Z.ltb_spec x2 0); lia.
  - intros Hy Hx. rewrite size_is_zero by lia.
    destruct (Z.ltb_spec y2 0), (Z.ltb_spec x2 0); lia.
  - intros Hle Hneg Hnear. destruct (Z.ltb_spec y2 0); lia.
Qed.

(** A box that sticks out of a 100 by 200 image at the lower right. *)
Lemma crop_lies_inside_the_image_witness :
  fst (Crop.crop_shape 100 200 {| bbox := (150, 80, 260, 130);
                                  embedding := [] |})
  = Z.max 0 (Z.min 100 130 - Z.max 0 80).
Proof.
  refine (proj1 (proj2
    (crop_lies_inside_the_image 100 200
       {| bbox := (150, 80, 260, 130); embedding := [] |} 150 80 260 130
       _ _ _)) _).
  - reflexivity.
  - reflexivity.
  - reflexivity.
  - discriminate.
Defined.
